(** * Ceylonmine backend: value normalisers and route handlers

    A shallow embedding of the Flask blueprints [contact.py], [license.py],
    [minerpage.py] and [unlicensedminer.py].

    - Python [str] values are [string]s whose characters are the code points
      U+0000..U+00FF (Latin-1); [str.lower], [str.strip] and the regular
      expression class [\d] are written out for that range.
    - Python [int] is [Z]; Python [float] is IEEE binary64, [spec_float] with
      precision 53 and maximal exponent 1024, rounded to nearest even.
      Integers are unbounded: the interpreter's optional limit on the length
      of integer/string conversions is taken to be switched off.
    - Exceptions are the [Raise] results of an error monad; [try]/[except]
      is a [match] on the result.
    - Calls on the Supabase client are the nodes of a program tree
      ([remote]); a handler that answers without calling the client is a
      leaf [Done]. [run] interprets a tree over a small model of the
      database and the storage bucket. *)

From Stdlib Require Import ZArith NArith String Ascii List Bool Lia.
From Stdlib Require Import Floats.SpecFloat Floats.PrimFloat Floats.FloatOps.
From Stdlib Require Import Numbers.DecimalString.
From stdpp Require Import gmap strings.

Set Warnings "-register-all".

Local Open Scope string_scope.
Local Open Scope Z_scope.

(** ** Exceptions *)

Inductive exn :=
| ValueError | TypeError | OverflowError | KeyError | AttributeError
| APIError.

Inductive result (A : Type) :=
| Ok (a : A)
| Raise (e : exn).
Arguments Ok {A} a.
Arguments Raise {A} e.

Definition bind {A B} (m : result A) (k : A -> result B) : result B :=
  match m with
  | Ok a => k a
  | Raise e => Raise e
  end.

Notation "'do' x <- m ; k" := (bind m (fun x => k))
  (at level 10, x name, m at level 100, k at level 200).

(** [try: m except Exception: h] *)
Definition try_except {A} (m : result A) (h : exn -> A) : A :=
  match m with
  | Ok a => a
  | Raise e => h e
  end.

Definition raises {A} (m : result A) : bool :=
  match m with Ok _ => false | Raise _ => true end.

(** ** Strings *)

Module Str.

Definition code (c : ascii) : N := N_of_ascii c.

Definition in_range (lo hi : N) (c : ascii) : bool :=
  ((lo <=? code c) && (code c <=? hi))%N.

(** [\d] on Latin-1: the ASCII digits are its only decimal digits. *)
Definition is_digit (c : ascii) : bool := in_range 48 57 c.

Definition is_dot (c : ascii) : bool := (code c =? 46)%N.

(** the class [[\d.]] *)
Definition is_digit_or_dot (c : ascii) : bool := is_digit c || is_dot c.

(** Characters removed by [str.strip()]: TAB..CR, FS..US, space, NEL and
    the no-break space. *)
Definition is_space (c : ascii) : bool :=
  in_range 9 13 c || in_range 28 32 c || (code c =? 133)%N || (code c =? 160)%N.

(** [str.lower()] on one character: A..Z and the Latin-1 capitals
    U+00C0..U+00DE, the multiplication sign U+00D7 excepted. *)
Definition lower_char (c : ascii) : ascii :=
  if in_range 65 90 c || (in_range 192 222 c && negb (code c =? 215)%N)
  then ascii_of_N (code c + 32)
  else c.

Fixpoint lower (s : string) : string :=
  match s with
  | EmptyString => EmptyString
  | String c s' => String (lower_char c) (lower s')
  end.

Fixpoint all_chars (p : ascii -> bool) (s : string) : bool :=
  match s with
  | EmptyString => true
  | String c s' => p c && all_chars p s'
  end.

Fixpoint any_char (p : ascii -> bool) (s : string) : bool :=
  match s with
  | EmptyString => false
  | String c s' => p c || any_char p s'
  end.

Fixpoint take_while (p : ascii -> bool) (s : string) : string :=
  match s with
  | EmptyString => EmptyString
  | String c s' => if p c then String c (take_while p s') else EmptyString
  end.

Fixpoint drop_while (p : ascii -> bool) (s : string) : string :=
  match s with
  | EmptyString => EmptyString
  | String c s' => if p c then drop_while p s' else s
  end.

Definition lstrip (s : string) : string := drop_while is_space s.

Fixpoint rstrip (s : string) : string :=
  match s with
  | EmptyString => EmptyString
  | String c s' =>
      match rstrip s' with
      | EmptyString => if is_space c then EmptyString else String c EmptyString
      | r => String c r
      end
  end.

(** [s.strip()] *)
Definition strip (s : string) : string := rstrip (lstrip s).

(** [sub in s] *)
Fixpoint contains (sub s : string) : bool :=
  match s with
  | EmptyString => String.prefix sub EmptyString
  | String _ s' => String.prefix sub s || contains sub s'
  end.

(** [s.replace(old, new)] for a non-empty [old] (every call site passes a
    literal): occurrences are replaced from the left and do not overlap.
    [skip] counts the characters of the current occurrence still to drop. *)
Fixpoint replace_from (old new : string) (skip : nat) (s : string) : string :=
  match s with
  | EmptyString => EmptyString
  | String c s' =>
      match skip with
      | S k => replace_from old new k s'
      | O =>
          if String.prefix old s
          then new +:+ replace_from old new (Nat.pred (String.length old)) s'
          else String c (replace_from old new O s')
      end
  end.

Definition replace (old new s : string) : string := replace_from old new O s.

(** [s.split(sep)] for a one-character separator. *)
Fixpoint split (sep : ascii) (s : string) : list string :=
  match s with
  | EmptyString => [EmptyString]
  | String c s' =>
      if Ascii.eqb c sep then EmptyString :: split sep s'
      else match split sep s' with
           | x :: xs => String c x :: xs
           | [] => [String c EmptyString]
           end
  end.

Fixpoint join (sep : string) (l : list string) : string :=
  match l with
  | [] => EmptyString
  | [x] => x
  | x :: xs => x +:+ sep +:+ join sep xs
  end.

(** [s.rsplit(sep, 1)] for a one-character separator: at most one cut, at
    the last separator. *)
Definition rsplit1 (sep : ascii) (s : string) : list string :=
  match split sep s with
  | [] | [_] => [s]
  | parts => [join (String sep EmptyString) (removelast parts);
              List.last parts EmptyString]
  end.

(** [re.search(r'[class]+', s)]: the leftmost maximal run of characters of
    the class, [None] when there is none. *)
Definition re_search_run (p : ascii -> bool) (s : string) : option string :=
  match drop_while (fun c => negb (p c)) s with
  | EmptyString => None
  | r => Some (take_while p r)
  end.

Definition digit_value (c : ascii) : Z := Z.of_N (code c) - 48.

Fixpoint int_of_digits (acc : Z) (s : string) : Z :=
  match s with
  | EmptyString => acc
  | String c s' => int_of_digits (10 * acc + digit_value c) s'
  end.

(** [int(s)]; the helpers only apply it to runs matched by [\d+], other
    texts raise. *)
Definition py_int (s : string) : result Z :=
  match s with
  | EmptyString => Raise ValueError
  | _ => if all_chars is_digit s then Ok (int_of_digits 0 s) else Raise ValueError
  end.

Definition digit_char (n : Z) : ascii := ascii_of_N (Z.to_N (48 + n mod 10)).

(** two and four digit fields, zero padded *)
Definition pad2 (n : Z) : string :=
  String (digit_char (n / 10)) (String (digit_char n) EmptyString).

Definition pad4 (n : Z) : string :=
  String (digit_char (n / 1000)) (String (digit_char (n / 100)) (pad2 n)).

(** [str(n)] of an integer *)
Definition of_int (z : Z) : string := NilZero.string_of_int (Z.to_int z).

End Str.

(** ** Numbers *)

Module Float.

Definition prec : Z := 53.
Definition emax : Z := 1024.

Definition is_infinite (f : spec_float) : bool :=
  match f with S754_infinity _ => true | _ => false end.

Definition is_nan (f : spec_float) : bool :=
  match f with S754_nan => true | _ => false end.

Definition sign (f : spec_float) : bool :=
  match f with
  | S754_zero s | S754_infinity s | S754_finite s _ _ => s
  | S754_nan => false
  end.

(** The binary64 value nearest to [a / b] (ties to even), for [0 <= a] and
    [0 < b], with sign [s]: the quotient is taken with more than 63
    significant bits, the remainder gives the position of the exact value
    between two neighbours, and [binary_round_aux] rounds. Too large a
    quotient gives an infinity. *)
Definition of_ratio (s : bool) (a b : Z) : spec_float :=
  if a =? 0 then S754_zero s
  else
    let k := Z.log2 b + 64 in
    let (q, r) := Z.div_eucl (a * 2 ^ k) b in
    binary_round_aux prec emax s q (- k) (new_location b r).

(** [float(n)] of an integer *)
Definition of_int (n : Z) : result spec_float :=
  let f := of_ratio (n <? 0) (Z.abs n) 1 in
  if is_infinite f then Raise OverflowError else Ok f.

(** [a / b] on integers, for [b <> 0] *)
Definition truediv (a b : Z) : result spec_float :=
  let f := of_ratio (xorb (a <? 0) (b <? 0)) (Z.abs a) (Z.abs b) in
  if is_infinite f then Raise OverflowError else Ok f.

Definition mul (x y : spec_float) : spec_float := SFmul prec emax x y.

(** nearest integer of [m / 2^n], ties to even *)
Definition round_half_even_shift (m n : Z) : Z :=
  let q := m / 2 ^ n in
  let r := m mod 2 ^ n in
  match Z.compare (2 * r) (2 ^ n) with
  | Lt => q
  | Gt => q + 1
  | Eq => if Z.even q then q else q + 1
  end.

(** [round(x)] of a float: an integer *)
Definition round (x : spec_float) : result Z :=
  match x with
  | S754_nan => Raise ValueError
  | S754_infinity _ => Raise OverflowError
  | S754_zero _ => Ok 0
  | S754_finite s m e =>
      let v := if 0 <=? e then Z.pos m * 2 ^ e
               else round_half_even_shift (Z.pos m) (- e) in
      Ok (if s then - v else v)
  end.

Fixpoint filter_chars (p : ascii -> bool) (s : string) : string :=
  match s with
  | EmptyString => EmptyString
  | String c s' => if p c then String c (filter_chars p s') else filter_chars p s'
  end.

(** [float(s)] on a text of digits and dots (a match of [[\d.]+]): one dot
    at most and one digit at least, else ValueError. Too large a numeral
    is an infinity, not an error. *)
Definition of_str (s : string) : result spec_float :=
  let digits := filter_chars Str.is_digit s in
  let dots := filter_chars Str.is_dot s in
  if Str.all_chars Str.is_digit_or_dot s
     && (String.length dots <=? 1)%nat
     && negb (String.length digits =? 0)%nat
  then
    let frac := Str.drop_while Str.is_digit s in
    let scale := Z.of_nat (Nat.pred (String.length frac)) in
    Ok (of_ratio false (Str.int_of_digits 0 digits) (10 ^ scale))
  else Raise ValueError.

End Float.

(** A Python number: [int] or [float]. *)
Inductive pynum :=
| PInt (n : Z)
| PFloat (f : spec_float).

(** [365 * years] *)
Definition mul_int (k : Z) (x : pynum) : result pynum :=
  match x with
  | PInt n => Ok (PInt (k * n))
  | PFloat f => do fk <- Float.of_int k; Ok (PFloat (Float.mul fk f))
  end.

(** [round(x)] *)
Definition py_round (x : pynum) : result Z :=
  match x with
  | PInt n => Ok n
  | PFloat f => Float.round f
  end.

(** ** Dates *)

Module Date.

Record date := mk { year : Z; month : Z; day : Z }.

Record datetime := mkdt { dt_date : date; hour : Z; minute : Z; second : Z }.

Definition is_leap (y : Z) : bool :=
  (y mod 4 =? 0) && (negb (y mod 100 =? 0) || (y mod 400 =? 0)).

Definition days_in_month (y m : Z) : Z :=
  if m =? 2 then (if is_leap y then 29 else 28)
  else if (m =? 4) || (m =? 6) || (m =? 9) || (m =? 11) then 30
  else 31.

Definition DAYS_BEFORE_MONTH : list Z :=
  [-1; 0; 31; 59; 90; 120; 151; 181; 212; 243; 273; 304; 334].

Definition days_before_year (y : Z) : Z :=
  let p := y - 1 in p * 365 + p / 4 - p / 100 + p / 400.

Definition days_before_month (y m : Z) : Z :=
  nth (Z.to_nat m) DAYS_BEFORE_MONTH 0
  + (if (2 <? m) && is_leap y then 1 else 0).

Definition valid (y m d : Z) : bool :=
  (1 <=? y) && (y <=? 9999) && (1 <=? m) && (m <=? 12)
  && (1 <=? d) && (d <=? days_in_month y m).

(** [date(y, m, d)] *)
Definition make (y m d : Z) : result date :=
  if valid y m d then Ok (mk y m d) else Raise ValueError.

(** [d.toordinal()]: 1 is 0001-01-01 *)
Definition toordinal (d : date) : Z :=
  days_before_year (year d) + days_before_month (year d) (month d) + day d.

Definition MAXORDINAL : Z := 3652059.
Definition DI400Y : Z := 146097.
Definition DI100Y : Z := 36524.
Definition DI4Y : Z := 1461.

(** [date.fromordinal(n)] for [1 <= n <= MAXORDINAL] *)
Definition fromordinal (n : Z) : date :=
  let n := n - 1 in
  let n400 := n / DI400Y in
  let n := n mod DI400Y in
  let n100 := n / DI100Y in
  let n := n mod DI100Y in
  let n4 := n / DI4Y in
  let n := n mod DI4Y in
  let n1 := n / 365 in
  let n := n mod 365 in
  let y := n400 * 400 + 1 + n100 * 100 + n4 * 4 + n1 in
  if (n1 =? 4) || (n100 =? 4) then mk (y - 1) 12 31
  else
    let leapyear := (n1 =? 3) && (negb (n4 =? 24) || (n100 =? 3)) in
    let m := (n + 50) / 32 in
    let preceding :=
      nth (Z.to_nat m) DAYS_BEFORE_MONTH 0
      + (if (2 <? m) && leapyear then 1 else 0) in
    if n <? preceding
    then
      let m' := m - 1 in
      let preceding' :=
        preceding - (days_in_month y m') in
      mk y m' (n - preceding' + 1)
    else mk y m (n - preceding + 1).

(** [d + timedelta(days=n)] *)
Definition add_days (d : date) (n : Z) : result date :=
  if 999999999 <? Z.abs n then Raise OverflowError
  else
    let o := toordinal d + n in
    if (0 <? o) && (o <=? MAXORDINAL) then Ok (fromordinal o)
    else Raise OverflowError.

(** [d.strftime('%Y-%m-%d')], the year written with four digits *)
Definition strftime_Y_m_d (d : date) : string :=
  Str.pad4 (year d) +:+ "-" +:+ Str.pad2 (month d) +:+ "-" +:+ Str.pad2 (day d).

Definition month_abbr (m : Z) : string :=
  nth (Z.to_nat m)
    [""; "Jan"; "Feb"; "Mar"; "Apr"; "May"; "Jun";
     "Jul"; "Aug"; "Sep"; "Oct"; "Nov"; "Dec"] "".

(** [d.strftime('%b %d, %Y')] in the C locale *)
Definition strftime_b_d_Y (d : date) : string :=
  month_abbr (month d) +:+ " " +:+ Str.pad2 (day d) +:+ ", " +:+ Str.pad4 (year d).

(** *** [datetime.strptime(s, '%Y-%m-%d')]

    The format compiles to the regular expression
    [(?P<Y>\d\d\d\d)-(?P<m>1[0-2]|0[1-9]|[1-9])-(?P<d>3[0-1]|[1-2]\d|0[1-9]|[1-9]| [1-9])],
    matched at the start of the text; text left over after the match is an
    error. An alternative is the list of character ranges it consists of. *)

Definition alternative := list (N * N).

Definition Y_directive : alternative := [(48, 57); (48, 57); (48, 57); (48, 57)]%N.

Definition m_directive : list alternative :=
  [ [(49, 49); (48, 50)]; [(48, 48); (49, 57)]; [(49, 57)] ]%N.

Definition d_directive : list alternative :=
  [ [(51, 51); (48, 49)]; [(49, 50); (48, 57)]; [(48, 48); (49, 57)];
    [(49, 57)]; [(32, 32); (49, 57)] ]%N.

(** value of a matched group: [int] of its text, which skips the blank *)
Definition group_char (acc : Z) (c : ascii) : Z :=
  if Str.is_digit c then 10 * acc + Str.digit_value c else acc.

(** match one alternative at the start of [s]: group value and rest *)
Fixpoint match_alt (a : alternative) (acc : Z) (s : string) : option (Z * string) :=
  match a with
  | [] => Some (acc, s)
  | (lo, hi) :: a' =>
      match s with
      | String c s' =>
          if Str.in_range lo hi c then match_alt a' (group_char acc c) s' else None
      | EmptyString => None
      end
  end.

Definition expect_dash (s : string) : option string :=
  match s with
  | String c s' => if (Str.code c =? 45)%N then Some s' else None
  | EmptyString => None
  end.

(** the first alternative for which the remainder of the pattern,
    [continue], matches too *)
Fixpoint first_alt {A} (alts : list alternative) (s : string)
    (continue : Z -> string -> option A) : option A :=
  match alts with
  | [] => None
  | a :: alts' =>
      match match_alt a 0 s with
      | Some (v, rest) =>
          match continue v rest with
          | Some r => Some r
          | None => first_alt alts' s continue
          end
      | None => first_alt alts' s continue
      end
  end.

(** the regular expression: year, month, day and the unmatched rest *)
Definition match_Y_m_d (s : string) : option (Z * Z * Z * string) :=
  match match_alt Y_directive 0 s with
  | None => None
  | Some (y, s1) =>
      match expect_dash s1 with
      | None => None
      | Some s2 =>
          first_alt m_directive s2 (fun m s3 =>
            match expect_dash s3 with
            | None => None
            | Some s4 =>
                first_alt d_directive s4 (fun d s5 => Some (y, m, d, s5))
            end)
      end
  end.

Definition strptime_Y_m_d (s : string) : result date :=
  match match_Y_m_d s with
  | None => Raise ValueError
  | Some (y, m, d, EmptyString) => make y m d
  | Some (_, _, _, String _ _) => Raise ValueError
  end.

End Date.

(** ** Values

    [scalar]: what a JSON document or a table cell holds. [pyval]: the
    arguments the normalisers tell apart with [isinstance]. *)

Inductive scalar :=
| SNull
| SBool (b : bool)
| SInt (n : Z)
| SStr (s : string).

Inductive pyval :=
| VScalar (v : scalar)
| VFloat (f : spec_float)
| VDatetime (d : Date.datetime).

Coercion VScalar : scalar >-> pyval.

(** [bool(v)] *)
Definition truthy_scalar (v : scalar) : bool :=
  match v with
  | SNull => false
  | SBool b => b
  | SInt n => negb (n =? 0)
  | SStr s => negb (String.eqb s "")
  end.

Definition truthy (v : pyval) : bool :=
  match v with
  | VScalar s => truthy_scalar s
  | VFloat (S754_zero _) => false
  | VFloat _ => true
  | VDatetime _ => true
  end.

(** [str(v)] *)
Definition py_str (v : scalar) : string :=
  match v with
  | SNull => "None"
  | SBool true => "True"
  | SBool false => "False"
  | SInt n => Str.of_int n
  | SStr s => s
  end.

(** [d.get(key)] on a row or a JSON object whose value may be null *)
Definition dict_get (d : gmap string scalar) (key : string) : scalar :=
  default SNull (d !! key).

(** [d[key]] *)
Definition dict_item (d : gmap string scalar) (key : string) : result scalar :=
  match d !! key with
  | Some v => Ok v
  | None => Raise KeyError
  end.

(** ** Requests, responses and the Supabase client *)

Abbreviation row := (gmap string scalar).

Inductive json :=
| JVal (v : scalar)
| JList (l : list json)
| JDict (d : gmap string json).

Definition JStr (s : string) : json := JVal (SStr s).

(** a dict literal *)
Definition dict (l : list (string * json)) : json := JDict (list_to_map l).

Definition json_of_row (r : row) : json := JDict (JVal <$> r).

Definition json_of_rows (l : list row) : json := JList (json_of_row <$> l).

(** status code and JSON body; [jsonify(...)] alone is a 200 *)
Definition response : Type := Z * json.

Definition status (r : response) : Z := fst r.

(** the body is an object with an ["error"] entry *)
Definition is_error_body (r : response) : bool :=
  match snd r with
  | JDict d => bool_decide (is_Some (d !! "error"))
  | _ => false
  end.

(** an uploaded file ([FileStorage]) *)
Record file := mkfile {
  filename : string;
  content_type : string;
  content : string
}.

(** [request.json]: an object, or some other JSON value *)
Inductive payload :=
| Object (fields : gmap string scalar)
| NotObject.

(** Header names are in the canonical form the handlers look them up by. *)
Record request := mkreq {
  cookies : gmap string string;
  headers : gmap string string;
  body : result payload;
  form : gmap string string;
  files : gmap string file
}.

(** what the interpreter and its libraries supply: the value [uuid.uuid4()]
    returns, [datetime.now().isoformat()], werkzeug's [secure_filename],
    [datetime.fromisoformat] and [str(e)] of an exception *)
Record runtime := mkrt {
  uuid4 : string;
  now_isoformat : string;
  secure_filename : string -> string;
  fromisoformat : string -> result Date.datetime;
  message : exn -> string
}.

(** [a or b] on the results of two [.get] calls *)
Definition py_or (a b : option string) : option string :=
  match a with
  | Some s => if String.eqb s "" then b else a
  | None => b
  end.

(** [not user_id] *)
Definition falsy (user_id : option string) : bool :=
  match user_id with
  | Some s => String.eqb s ""
  | None => true
  end.

(** [supabase.table(t).select(columns).eq(..)...order(..).limit(..)] *)
Record query := mkquery {
  q_table : string;
  q_columns : string;
  q_eq : list (string * string);
  q_order_desc : option string;
  q_limit : option nat
}.

(** A handler as a tree of client calls. Each call hands its outcome, a
    value or an exception, to the rest of the handler. *)
Inductive remote (A : Type) : Type :=
| Done (a : A)
| Select (q : query) (k : result (list row) -> remote A)
| Insert (table : string) (r : row) (k : result (list row) -> remote A)
| ListBuckets (k : result (list string) -> remote A)
| Upload (bucket path content : string) (options : list (string * scalar))
    (k : result bool -> remote A)
| GetPublicUrl (bucket path : string) (k : result string -> remote A).
Arguments Done {A} a.
Arguments Select {A} q k.
Arguments Insert {A} table r k.
Arguments ListBuckets {A} k.
Arguments Upload {A} bucket path content options k.
Arguments GetPublicUrl {A} bucket path k.

(** the handler answers without a call on the client *)
Definition makes_no_call {A} (p : remote A) : bool :=
  match p with Done _ => true | _ => false end.

(** a pure step inside a handler's [try] block: an exception ends the
    handler with the response of its [except] clause *)
Definition attempt {A B} (m : result A) (on_error : exn -> B)
    (k : A -> remote B) : remote B :=
  match m with
  | Ok a => k a
  | Raise e => Done (on_error e)
  end.

(** *** A model of the service

    Tables of rows, buckets of named objects, and a schedule of outages:
    each database or storage call consumes one entry, [true] makes the call
    raise and leave the data as they are. *)
Record world := mkworld {
  tables : gmap string (list row);
  buckets : gmap string (gmap string string);
  outages : list bool;
  base_url : string
}.

Definition next_outage (w : world) : bool * world :=
  match outages w with
  | [] => (false, w)
  | b :: rest => (b, mkworld (tables w) (buckets w) rest (base_url w))
  end.

Definition matches (filters : list (string * string)) (r : row) : bool :=
  forallb (fun f : string * string =>
    match r !! f.1 with
    | Some SNull | None => false
    | Some v => String.eqb (py_str v) f.2
    end) filters.

Definition column_text (col : string) (r : row) : string :=
  py_str (dict_get r col).

Fixpoint insert_desc (col : string) (r : row) (l : list row) : list row :=
  match l with
  | [] => [r]
  | x :: xs =>
      if String.ltb (column_text col r) (column_text col x)
      then x :: insert_desc col r xs
      else r :: l
  end.

Definition order_desc (col : string) (l : list row) : list row :=
  foldr (insert_desc col) [] l.

Definition project (columns : string) (r : row) : row :=
  if String.eqb columns "*" then r
  else
    let cols := Str.strip <$> Str.split "," columns in
    filter (fun kv : string * scalar => bool_decide (kv.1 ∈ cols)) r.

Definition do_select (q : query) (w : world) : result (list row) :=
  match tables w !! q_table q with
  | None => Raise APIError
  | Some rows =>
      let rows := List.filter (matches (q_eq q)) rows in
      let rows := match q_order_desc q with
                  | Some col => order_desc col rows
                  | None => rows
                  end in
      let rows := match q_limit q with
                  | Some n => firstn n rows
                  | None => rows
                  end in
      Ok (project (q_columns q) <$> rows)
  end.

Definition set_tables (w : world) (t : gmap string (list row)) : world :=
  mkworld t (buckets w) (outages w) (base_url w).

Definition set_buckets (w : world) (b : gmap string (gmap string string)) : world :=
  mkworld (tables w) b (outages w) (base_url w).

Definition do_insert (table : string) (r : row) (w : world)
    : result (list row) * world :=
  match tables w !! table with
  | None => (Raise APIError, w)
  | Some rows => (Ok [r], set_tables w (<[table := (rows ++ [r])%list]> (tables w)))
  end.

(** an upload without [upsert] fails when the object exists *)
Definition do_upload (bucket path data : string) (w : world)
    : result bool * world :=
  match buckets w !! bucket with
  | None => (Raise APIError, w)
  | Some objects =>
      match objects !! path with
      | Some _ => (Raise APIError, w)
      | None =>
          (Ok true, set_buckets w (<[bucket := <[path := data]> objects]> (buckets w)))
      end
  end.

Definition public_url (w : world) (bucket path : string) : string :=
  base_url w +:+ "/storage/v1/object/public/" +:+ bucket +:+ "/" +:+ path.

Fixpoint run {A} (p : remote A) (w : world) : A * world :=
  match p with
  | Done a => (a, w)
  | Select q k =>
      let (down, w) := next_outage w in
      if down then run (k (Raise APIError)) w
      else run (k (do_select q w)) w
  | Insert table r k =>
      let (down, w) := next_outage w in
      if down then run (k (Raise APIError)) w
      else let (reply, w) := do_insert table r w in run (k reply) w
  | ListBuckets k =>
      let (down, w) := next_outage w in
      if down then run (k (Raise APIError)) w
      else run (k (Ok (fst <$> map_to_list (buckets w)))) w
  | Upload bucket path data _ k =>
      let (down, w) := next_outage w in
      if down then run (k (Raise APIError)) w
      else let (reply, w) := do_upload bucket path data w in run (k reply) w
  | GetPublicUrl bucket path k =>
      run (k (Ok (public_url w bucket path))) w
  end.

Notation "'try' x <- m 'except' h ; k" := (attempt m h (fun x => k))
  (at level 10, x name, m at level 100, h at level 9, k at level 200).

Definition error (msg : string) : json := dict [("error", JStr msg)].

(** ** minerpage.py *)

Module minerpage.

Definition parse_period_try (period_str : scalar) : result pynum :=
  let period := Str.lower (py_str period_str) in
  match Str.re_search_run Str.is_digit period with
  | None => Ok (PInt 1)
  | Some group =>
      do num <- Str.py_int group;
      if Str.contains "month" period then
        do q <- Float.truediv num 12; Ok (PFloat q)
      else if existsb (fun x => Str.contains x period) ["year"; "yr"; "y"] then
        Ok (PInt num)
      else Ok (PInt num)
  end.

Definition parse_period (period_str : scalar) : pynum :=
  try_except (parse_period_try period_str) (fun _ => PInt 1).

Definition parse_date_try (date_str : pyval) : result (option Date.date) :=
  match date_str with
  | VDatetime d => Ok (Some (Date.dt_date d))
  | VScalar (SStr s) =>
      if Str.contains "T" s then
        do d <- Date.strptime_Y_m_d (hd "" (Str.split "T" s)); Ok (Some d)
      else
        do d <- Date.strptime_Y_m_d s; Ok (Some d)
  | _ => Raise TypeError
  end.

Definition parse_date (date_str : pyval) : option Date.date :=
  if negb (truthy date_str) then None
  else try_except (parse_date_try date_str) (fun _ => None).

Definition get_user_id (req : request) : option string :=
  let user_id := py_or (cookies req !! "userId") (headers req !! "X-User-ID") in
  if falsy user_id then None else user_id.

Definition internal_error (e : exn) : response :=
  (500, error "Internal server error").

(** lines 101-102: [timedelta(days=round(365 * years))] added to the
    active date *)
Definition calculate_expiry (active_date : Date.date) (years : pynum)
    : result Date.date :=
  do product <- mul_int 365 years;
  do days <- py_round product;
  Date.add_days active_date days.

Definition users_query (user_id : string) : query :=
  mkquery "users" "license_status, active_date" [("id", user_id)] None None.

Definition application_query (user_id : string) : query :=
  mkquery "application" "exploration_license_no, period_of_validity"
          [("miner_id", user_id)] None None.

Definition get_license (req : request) : remote response :=
  match get_user_id req with
  | None => Done (401, error "User ID not provided")
  | Some user_id =>
      Select (users_query user_id) (fun reply =>
      try user_data <- reply except internal_error;
      match user_data with
      | [] => Done (404, error "User not found")
      | user_data :: _ =>
          try license_status <- dict_item user_data "license_status"
            except internal_error;
          match parse_date (dict_get user_data "active_date") with
          | None => Done (400, error "Invalid or missing active date")
          | Some active_date =>
              Select (application_query user_id) (fun reply =>
              try app_data <- reply except internal_error;
              match app_data with
              | [] => Done (404, error "No application found")
              | app_data :: _ =>
                  try license_no <- dict_item app_data "exploration_license_no"
                    except internal_error;
                  let period :=
                    default (SStr "1 year") (app_data !! "period_of_validity") in
                  let years := parse_period period in
                  try expiry_date <- calculate_expiry active_date years
                    except internal_error;
                  Done (200, dict [
                    ("license_status", JVal license_status);
                    ("license_number", JVal license_no);
                    ("active_date", JStr (Date.strftime_Y_m_d active_date));
                    ("period_of_validity", JVal period);
                    ("expires", JStr (Date.strftime_Y_m_d expiry_date))])
              end)
          end
      end)
  end.

Definition get_royalty (req : request) : remote response :=
  match get_user_id req with
  | None => Done (401, error "User ID not provided")
  | Some user_id =>
      Select (mkquery "royalty" "total_amount" [("miner_id", user_id)] None None)
        (fun reply =>
      try royalty_data <- reply except internal_error;
      match royalty_data with
      | [] => Done (404, error "No royalty data found")
      | first :: _ =>
          try total_amount <- dict_item first "total_amount" except internal_error;
          Done (200, dict [("royalty_amount_due", JVal total_amount);
                           ("due_by", JStr "2025-03-15")])
      end)
  end.

Definition format_announcement (item : row) : json :=
  let date_str := default (SStr "") (item !! "created_at") in
  let date_display :=
    if truthy_scalar date_str then
      match parse_date date_str with
      | Some date_obj => Date.strftime_b_d_Y date_obj
      | None => ""
      end
    else "" in
  dict [("text", JVal (default (SStr "No text") (item !! "text")));
        ("date", JStr date_display)].

Definition get_announcements (req : request) : remote response :=
  match get_user_id req with
  | None => Done (401, error "User ID not provided")
  | Some user_id =>
      Select (mkquery "comments" "text, created_at" [("miner_id", user_id)]
                      (Some "created_at") (Some 5%nat)) (fun reply =>
      try announcements <- reply except internal_error;
      Done (200, dict [
        ("announcements", JList (format_announcement <$> announcements));
        ("status_categories",
         JList [JStr "Pending"; JStr "Submitted"; JStr "Completed"; JStr "Approved"])]))
  end.

End minerpage.

(** ** license.py *)

Module license.

Definition ALLOWED_EXTENSIONS : gset string :=
  {[ "pdf"; "png"; "jpg"; "jpeg" ]}.

Definition allowed_file (filename : string) : bool :=
  Str.contains "." filename
  && bool_decide (Str.lower (nth 1 (Str.rsplit1 "." filename) "") ∈ ALLOWED_EXTENSIONS).

(** [bool(file)]: a missing upload, or one without a file name, is false *)
Definition file_present (f : option file) : bool :=
  match f with
  | Some f => negb (String.eqb (filename f) "")
  | None => false
  end.

(** [folder] is received and not used. The reply to [list_buckets] is the
    list of bucket names. *)
Definition save_file (rt : runtime) (f : option file) (folder : string)
    : remote (option string) :=
  match f with
  | Some file =>
      if file_present f && allowed_file (filename file) then
        let filename := secure_filename rt (filename file) in
        let file_ext := List.last (Str.split "." filename) "" in
        let unique_filename := uuid4 rt +:+ "." +:+ file_ext in
        let file_content := content file in
        ListBuckets (fun reply =>
        try buckets <- reply except (fun _ => None);
        Upload "documents" unique_filename file_content
          [("content-type", SStr (content_type file));
           ("cache-control", SStr "3600");
           ("upsert", SBool false)] (fun reply =>
        try response <- reply except (fun _ => None);
        if negb response then Done None
        else
          GetPublicUrl "documents" unique_filename (fun reply =>
          try file_url <- reply except (fun _ => None);
          Done (Some file_url))))
      else Done None
  | None => Done None
  end.

Definition is_value_or_type_error (e : exn) : bool :=
  match e with ValueError | TypeError => true | _ => false end.

Definition clean_numeric_value (value : pyval) : result (option spec_float) :=
  match value with
  | VScalar SNull => Ok None
  | VScalar (SInt n) => do f <- Float.of_int n; Ok (Some f)
  | VScalar (SBool b) => do f <- Float.of_int (if b then 1 else 0); Ok (Some f)
  | VFloat f => Ok (Some f)
  | VScalar (SStr s) =>
      let value := Str.strip (Str.lower s) in
      let value := Str.replace "," "" value in
      let value := Str.replace "usd" "" value in
      let value := Str.replace "$" "" value in
      let value := Str.replace "tons/day" "" value in
      let value := Str.replace "m" "" value in
      let value := Str.replace "%" "" value in
      let value := Str.replace "years" "" value in
      let value := Str.replace "year" "" value in
      let value := Str.strip value in
      match Str.re_search_run Str.is_digit_or_dot value with
      | Some group =>
          match Float.of_str group with
          | Ok result => Ok (Some result)
          | Raise e => if is_value_or_type_error e then Ok None else Raise e
          end
      | None => Ok None
      end
  | VDatetime _ => Ok None
  end.

End license.

(** ** unlicensedminer.py *)

Module unlicensedminer.

Definition get_user_id (req : request) : option string :=
  py_or (cookies req !! "userId") (headers req !! "X-User-ID").

Definition internal_error (e : exn) : response :=
  (500, error "Internal server error").

Definition get_user_status (req : request) : remote response :=
  let user_id := get_user_id req in
  if falsy user_id then Done (401, error "Authentication required")
  else
    let user_id := default "" user_id in
    Select (mkquery "application" "status" [("miner_id", user_id)] None None)
      (fun reply =>
    try data <- reply except internal_error;
    match data with
    | [] => Done (404, dict [("error", JStr "Application not found");
                             ("solution", JStr "Please submit an application first")])
    | first :: _ =>
        try status <- dict_item first "status" except internal_error;
        Done (200, dict [("status", JVal status); ("miner_id", JStr user_id)])
    end).

Definition get_application_details (req : request) : remote response :=
  let user_id := get_user_id req in
  if falsy user_id then Done (401, error "Authentication required")
  else
    let user_id := default "" user_id in
    Select (mkquery "application" "*" [("miner_id", user_id)] None None)
      (fun reply =>
    try data <- reply except internal_error;
    match data with
    | [] => Done (404, error "Application not found")
    | first :: _ => Done (200, dict [("application", json_of_row first)])
    end).

Definition get_documents (req : request) : remote response :=
  let user_id := get_user_id req in
  if falsy user_id then Done (401, error "Authentication required")
  else
    let user_id := default "" user_id in
    Select (mkquery "documents" "*" [("miner_id", user_id)] None None)
      (fun reply =>
    try data <- reply except internal_error;
    Done (200, dict [("documents", json_of_rows data)])).

Definition upload_error (rt : runtime) (e : exn) : response :=
  (500, error (message rt e)).

Definition document_data (rt : runtime) (user_id : string) (file : file)
    (description file_url : string) : row :=
  list_to_map [
    ("miner_id", SStr user_id);
    ("document_name", SStr (filename file));
    ("document_type", SStr description);
    ("document_url", SStr file_url);
    ("upload_date", SStr (now_isoformat rt));
    ("status", SStr "pending_review")].

Definition uploaded (file_url : string) : response :=
  (200, dict [("message", JStr "Document uploaded successfully");
              ("document_url", JStr file_url)]).

Definition upload_document (rt : runtime) (req : request) : remote response :=
  let user_id := get_user_id req in
  if falsy user_id then Done (401, error "Authentication required")
  else
    let user_id := default "" user_id in
    match files req !! "file" with
    | None => Done (400, error "No file uploaded")
    | Some file =>
        let description := default "" (form req !! "description") in
        if String.eqb (filename file) "" then Done (400, error "No selected file")
        else
          let file_extension := List.last (Str.split "." (filename file)) "" in
          let unique_filename := uuid4 rt +:+ "." +:+ file_extension in
          let file_bytes := content file in
          Upload "documents" unique_filename file_bytes [] (fun reply =>
          try _uploaded <- reply except (upload_error rt);
          GetPublicUrl "documents" unique_filename (fun reply =>
          try file_url <- reply except (upload_error rt);
          Insert "documents" (document_data rt user_id file description file_url)
            (fun reply =>
          try _inserted <- reply except (upload_error rt);
          Done (uploaded file_url))))
    end.

Definition format_announcement (rt : runtime) (item : row) : result json :=
  let date_str := default (SStr "") (item !! "created_at") in
  do date_display <-
    (if truthy_scalar date_str then
       match date_str with
       | SStr s => do d <- fromisoformat rt s; Ok (Date.strftime_b_d_Y (Date.dt_date d))
       | _ => Raise TypeError
       end
     else Ok "");
  Ok (dict [("text", JVal (default (SStr "") (item !! "text")));
            ("date", JStr date_display)]).

Fixpoint format_all (rt : runtime) (items : list row) : result (list json) :=
  match items with
  | [] => Ok []
  | item :: rest =>
      do a <- format_announcement rt item;
      do l <- format_all rt rest;
      Ok (a :: l)
  end.

Definition get_announcements (rt : runtime) (req : request) : remote response :=
  let user_id := get_user_id req in
  if falsy user_id then Done (401, error "Authentication required")
  else
    let user_id := default "" user_id in
    Select (mkquery "comments" "text, created_at" [("miner_id", user_id)]
                    (Some "created_at") None) (fun reply =>
    try data <- reply except internal_error;
    try announcements <- format_all rt data except internal_error;
    Done (200, dict [("announcements", JList announcements)])).

End unlicensedminer.

(** ** contact.py *)

Module contact.

Definition failure (rt : runtime) (e : exn) : response :=
  (500, error (message rt e)).

(** [data.get(key)]: only an object has the method *)
Definition data_get (data : payload) (key : string) : result scalar :=
  match data with
  | Object fields => Ok (dict_get fields key)
  | NotObject => Raise AttributeError
  end.

Definition data_item (data : payload) (key : string) : result scalar :=
  match data with
  | Object fields => dict_item fields key
  | NotObject => Raise TypeError
  end.

Definition submit_contact (rt : runtime) (req : request) : remote response :=
  try data <- body req except (failure rt);
  try name <- data_get data "name" except (failure rt);
  try email <- data_get data "email" except (failure rt);
  try message <- data_get data "message" except (failure rt);
  if negb (forallb truthy_scalar [name; email; message]) then
    Done (400, dict [("error", JStr "Missing required fields");
                     ("details", JStr "Name, email, and message are required")])
  else
    try contact_data <-
        (do name <- data_item data "name";
         do email <- data_item data "email";
         do message <- data_item data "message";
         Ok (list_to_map [("name", name); ("email", email); ("message", message)] : row))
      except (failure rt);
    Insert "contact_data" contact_data (fun reply =>
    try data <- reply except (failure rt);
    match data with
    | _ :: _ =>
        Done (201, dict [("message", JStr "Contact message submitted successfully!");
                         ("data", json_of_rows data)])
    | [] =>
        Done (500, dict [("error", JStr "Failed to submit contact message");
                         ("details", JStr "No data returned from Supabase")])
    end).

Definition get_contacts (rt : runtime) : remote response :=
  Select (mkquery "contact_data" "*" [] None None) (fun reply =>
  try data <- reply except (failure rt);
  match data with
  | _ :: _ => Done (200, json_of_rows data)
  | [] =>
      Done (500, dict [("error", JStr "Failed to fetch contacts");
                       ("details", JStr "No data returned from Supabase")])
  end).

End contact.

(** ** The routes of the two miner blueprints *)

Definition handler : Type := request -> remote response.

Definition miner_routes : list (string * handler) :=
  [ ("/miner/license", minerpage.get_license);
    ("/miner/royalty", minerpage.get_royalty);
    ("/miner/announcements", minerpage.get_announcements) ].

Definition unlicensedminer_routes (rt : runtime) : list (string * handler) :=
  [ ("/unlicensedminer/status", unlicensedminer.get_user_status);
    ("/unlicensedminer/application", unlicensedminer.get_application_details);
    ("/unlicensedminer/documents", unlicensedminer.get_documents);
    ("/unlicensedminer/upload-document", unlicensedminer.upload_document rt);
    ("/unlicensedminer/announcements", unlicensedminer.get_announcements rt) ].

(** an entry of a response body that is an object *)
Definition body_field (r : response) (key : string) : option json :=
  match snd r with
  | JDict d => d !! key
  | _ => None
  end.

(** ** Sample data for the examples *)

Module Sample.

Definition rt : runtime :=
  mkrt "7f0c" "2025-01-01T00:00:00" (fun s => s) (fun _ => Raise ValueError)
       (fun _ => "error").

Definition anonymous : request := mkreq ∅ ∅ (Ok NotObject) ∅ ∅.

Definition miner (files : gmap string file) : request :=
  mkreq {[ "userId" := "u1" ]} ∅ (Ok NotObject) ∅ files.

Definition post (fields : gmap string scalar) : request :=
  mkreq ∅ ∅ (Ok (Object fields)) ∅ ∅.

Definition user_row : row :=
  list_to_map [("id", SStr "u1"); ("license_status", SStr "approved");
               ("active_date", SStr "2024-01-01")].

Definition application_row : row :=
  list_to_map [("miner_id", SStr "u1"); ("exploration_license_no", SStr "EL-7");
               ("period_of_validity", SStr "2 years")].

Definition db : world :=
  mkworld
    (list_to_map [("users", [user_row]); ("application", [application_row]);
                  ("contact_data", []); ("documents", [])])
    {[ "documents" := ∅ ]}
    []
    "https://project.supabase.co".

Definition exe : file := mkfile "setup.exe" "application/octet-stream" "MZ".

End Sample.

(** ** Vocabulary of the properties *)

(** [free p s]: no character of [s] is in the class [p] *)
Notation "'free' p s" := (Str.any_char p s = false) (at level 10, p at level 9, s at level 9).

(** [around num t]: the text [t] is the numeral [num] between two texts
    free of digits and dots *)
Definition around (num t : string) : Prop :=
  exists a b, free Str.is_digit_or_dot a /\ free Str.is_digit_or_dot b
              /\ t = a +:+ num +:+ b.

(** the texts the cleaner removes, in the order of its steps *)
Definition stripped_tokens : list string :=
  [","; "usd"; "$"; "tons/day"; "m"; "%"; "years"; "year"].

(** a numeral of 400 nines: the quotient by 12 is beyond the floats *)
Definition four_hundred_nines : string := String.concat "" (repeat "9" 400).

(** the formats the specification names for a date, [YYYY-MM-DD] alone or
    before a [T]: four, two and two digits *)
Definition YYYY_MM_DD : Date.alternative :=
  [(48, 57); (48, 57); (48, 57); (48, 57); (45, 45);
   (48, 57); (48, 57); (45, 45); (48, 57); (48, 57)]%N.

Definition is_YYYY_MM_DD (s : string) : bool :=
  match Date.match_alt YYYY_MM_DD 0 s with
  | Some (_, EmptyString) => true
  | _ => false
  end.

(** the text a date is read from: what stands before the first [T] *)
Definition date_part (s : string) : string :=
  if Str.contains "T" s then hd "" (Str.split "T" s) else s.

Definition named_format (s : string) : bool := is_YYYY_MM_DD (date_part s).

(** the ways [strptime] lets a month or a day be written: two digits, or
    one digit below ten, which for the day a blank may precede *)
Definition field_spellings (blank : bool) (n : Z) : list string :=
  Str.pad2 n ::
  (if n <? 10
   then String (Str.digit_char n) "" ::
        (if blank then [String " " (String (Str.digit_char n) "")] else [])
   else []).

Definition spellings (d : Date.date) : list string :=
  flat_map (fun m =>
    map (fun dd => Str.pad4 (Date.year d) +:+ "-" +:+ m +:+ "-" +:+ dd)
        (field_spellings true (Date.day d)))
    (field_spellings false (Date.month d)).

(** [date.fromordinal] after the split of the day number into the count of
    400-year cycles and the day within the cycle *)
Definition from_cycle (n400 n : Z) : Date.date :=
  let n100 := n / Date.DI100Y in
  let n := n mod Date.DI100Y in
  let n4 := n / Date.DI4Y in
  let n := n mod Date.DI4Y in
  let n1 := n / 365 in
  let n := n mod 365 in
  let y := n400 * 400 + 1 + n100 * 100 + n4 * 4 + n1 in
  if (n1 =? 4) || (n100 =? 4) then Date.mk (y - 1) 12 31
  else
    let leapyear := (n1 =? 3) && (negb (n4 =? 24) || (n100 =? 3)) in
    let m := (n + 50) / 32 in
    let preceding :=
      nth (Z.to_nat m) Date.DAYS_BEFORE_MONTH 0
      + (if (2 <? m) && leapyear then 1 else 0) in
    if n <? preceding
    then
      let m' := m - 1 in
      let preceding' := preceding - (Date.days_in_month y m') in
      Date.mk y m' (n - preceding' + 1)
    else Date.mk y m (n - preceding + 1).

(** [f] holds of the [k] integers from [start] on *)
Fixpoint all_from (f : Z -> bool) (start : Z) (k : nat) : bool :=
  match k with
  | O => true
  | S k' => f start && all_from f (start + 1) k'
  end.

(** day [n] of the first cycle is a calendar date, and its number is n+1 *)
Definition cycle_day_ok (n : Z) : bool :=
  let d := from_cycle 0 n in
  (Date.toordinal d =? n + 1)
  && Date.valid (Date.year d) (Date.month d) (Date.day d).

(** answers of the handlers *)
Definition license_answer (license_status license_no period : scalar)
    (active_date expiry_date : Date.date) : response :=
  (200, dict [
    ("license_status", JVal license_status);
    ("license_number", JVal license_no);
    ("active_date", JStr (Date.strftime_Y_m_d active_date));
    ("period_of_validity", JVal period);
    ("expires", JStr (Date.strftime_Y_m_d expiry_date))]).

Definition missing_fields : response :=
  (400, dict [("error", JStr "Missing required fields");
              ("details", JStr "Name, email, and message are required")]).

Definition contacts_query : query := mkquery "contact_data" "*" [] None None.

Definition no_contacts : response :=
  (500, dict [("error", JStr "Failed to fetch contacts");
              ("details", JStr "No data returned from Supabase")]).

(** ** license.py: the routes of init_routes *)

Module license_routes.

(** what Flask, the operating system and [uuid] supply to submit_license:
    the root path of the application, the outcome of
    [os.makedirs(path, exist_ok=True)], [request.is_json], and the value
    [uuid.uuid4()] returns while the file of a given field is saved (one
    request saves several files, each under a name of its own) *)
Record host := mkhost {
  root_path : string;
  makedirs : string -> result unit;
  is_json : request -> bool;
  field_uuid : string -> string
}.

(** the runtime during one call of save_file *)
Definition with_uuid (rt : runtime) (u : string) : runtime :=
  mkrt u (now_isoformat rt) (secure_filename rt) (fromisoformat rt) (message rt).

Fixpoint ends_with (c : ascii) (s : string) : bool :=
  match s with
  | EmptyString => false
  | String x EmptyString => Ascii.eqb x c
  | String _ s' => ends_with c s'
  end.

(** [os.path.join(a, b)] for a relative [b] *)
Definition path_join (a b : string) : string :=
  if String.eqb a "" then b
  else if ends_with "/" a then a +:+ b
  else a +:+ "/" +:+ b.

(** A handler that also updates rows: a tree whose nodes are programs of
    client calls ([Call], run to their end) and updates. *)
Inductive flow (A : Type) : Type :=
| Answer (a : A)
| Call (X : Type) (p : remote X) (k : X -> flow A)
| Update (table : string) (patch : row) (filters : list (string * string))
    (k : result (list row) -> flow A).
Arguments Answer {A} a.
Arguments Call {A X} p k.
Arguments Update {A} table patch filters k.

(** [update(patch).eq(..)]: the matching rows take the entries of the
    patch; the reply lists them *)
Definition do_update (table : string) (patch : row)
    (filters : list (string * string)) (w : world) : result (list row) * world :=
  match tables w !! table with
  | None => (Raise APIError, w)
  | Some rows =>
      let rows' :=
        (fun r : row => if matches filters r then patch ∪ r else r) <$> rows in
      (Ok ((fun r : row => patch ∪ r) <$> List.filter (matches filters) rows),
       set_tables w (<[table := rows']> (tables w)))
  end.

Fixpoint run_flow {A} (p : flow A) (w : world) : A * world :=
  match p with
  | Answer a => (a, w)
  | Call p k => let (x, w) := run p w in run_flow (k x) w
  | Update table patch filters k =>
      let (down, w) := next_outage w in
      if down then run_flow (k (Raise APIError)) w
      else
        let (reply, w) := do_update table patch filters w in
        run_flow (k reply) w
  end.

Definition file_fields : list string :=
  ["articles_of_association"; "annual_reports"; "licensed_boundary_survey"].

Definition required_fields : list string :=
  ["exploration_license_no"; "applicant_name"; "national_id"].

(** a value that may be None, as a cell *)
Definition cell (o : option string) : scalar :=
  match o with
  | Some s => SStr s
  | None => SNull
  end.

Definition internal_error : response := (500, error "Internal server error").

Definition database_failed : response := (500, error "Database operation failed").

(** the loop over [file_fields]: each file that is present goes through
    save_file, and its URL, or None, is entered under the name of the field *)
Fixpoint relay_files (rt : runtime) (app : host) (req : request)
    (upload_folder : string) (fields : list string) (form_data : row)
    (k : row -> flow response) : flow response :=
  match fields with
  | [] => k form_data
  | field :: rest =>
      let file := files req !! field in
      if license.file_present file then
        Call (license.save_file (with_uuid rt (field_uuid app field)) file
                                upload_folder) (fun file_path =>
          relay_files rt app req upload_folder rest
            (<[field := cell file_path]> form_data) k)
      else
        relay_files rt app req upload_folder rest (<[field := SNull]> form_data) k
  end.

(** [field not in form_data or form_data[field] is None] *)
Definition is_missing (form_data : row) (field : string) : bool :=
  match form_data !! field with
  | None | Some SNull => true
  | Some _ => false
  end.

Definition submitted (data : list row) (user_id : string) : response :=
  (201, dict [("message", JStr "License submitted successfully!");
              ("data", json_of_rows data);
              ("user_id", JStr user_id)]).

(** the inner [try]: insert the application, then mark the user *)
Definition store (rt : runtime) (user_id : string) (form_data : row)
    : flow response :=
  Call (Insert "application" form_data Done) (fun reply =>
  match reply with
  | Raise _ => Answer database_failed
  | Ok [] => Answer database_failed
  | Ok data =>
      Update "users"
        (list_to_map [("license_status", SStr "pending");
                      ("active_date", SStr (now_isoformat rt))])
        [("id", user_id)] (fun reply =>
      match reply with
      | Raise _ => Answer database_failed
      | Ok _ => Answer (submitted data user_id)
      end)
  end).

Definition validate_and_store (rt : runtime) (user_id : string) (form_data : row)
    : flow response :=
  match List.filter (is_missing form_data) required_fields with
  | [] => store rt user_id form_data
  | missing_fields =>
      Answer (400, error ("Missing or invalid fields: "
                          +:+ Str.join ", " missing_fields))
  end.

(** [data.get(key)] on the parsed body: only an object has the method *)
Definition json_get (data : payload) (key : string) : result scalar :=
  match data with
  | Object fields => Ok (dict_get fields key)
  | NotObject => Raise AttributeError
  end.

Definition submit_license (rt : runtime) (app : host) (req : request)
    : flow response :=
  let user_id := py_or (cookies req !! "userId") (headers req !! "X-User-ID") in
  if falsy user_id then Answer (401, error "User ID not provided")
  else
    let user_id := default "" user_id in
    let upload_folder := path_join (root_path app) "uploads" in
    match makedirs app upload_folder with
    | Raise _ => Answer internal_error
    | Ok _ =>
        if is_json app req then
          match (do data <- body req; json_get data "exploration_license_no") with
          | Raise _ => Answer internal_error
          | Ok license_no =>
              validate_and_store rt user_id
                (list_to_map [("miner_id", SStr user_id);
                              ("exploration_license_no", license_no)])
          end
        else
          relay_files rt app req upload_folder file_fields
            (list_to_map
               [("miner_id", SStr user_id);
                ("exploration_license_no",
                 cell (form req !! "exploration_license_no"))])
            (validate_and_store rt user_id)
    end.

Definition get_licenses (req : request) : remote response :=
  let user_id := py_or (cookies req !! "userId") (headers req !! "X-User-ID") in
  if falsy user_id then Done (401, error "User ID not provided")
  else
    let user_id := default "" user_id in
    Select (mkquery "application" "*" [("miner_id", user_id)] None None)
      (fun reply =>
    try data <- reply
      except (fun _ => (500, error "Failed to retrieve applications"));
    Done (200, json_of_rows data)).

End license_routes.

(** ** Vocabulary of the further properties *)

(** the routes that read the rows of one miner *)
Definition miner_get_routes (rt : runtime) : list (string * handler) :=
  [ ("/miner/license", minerpage.get_license);
    ("/miner/royalty", minerpage.get_royalty);
    ("/miner/announcements", minerpage.get_announcements);
    ("/unlicensedminer/status", unlicensedminer.get_user_status);
    ("/unlicensedminer/application", unlicensedminer.get_application_details);
    ("/unlicensedminer/documents", unlicensedminer.get_documents);
    ("/unlicensedminer/announcements", unlicensedminer.get_announcements rt);
    ("/license/get", license_routes.get_licenses) ].

(** the routes that only read *)
Definition get_routes (rt : runtime) : list (string * handler) :=
  (miner_get_routes rt ++ [ ("/contact/get", fun _ => contact.get_contacts rt) ])%list.

(** the routes above and the two that write through one program of calls *)
Definition remote_routes (rt : runtime) : list (string * handler) :=
  (get_routes rt
   ++ [ ("/unlicensedminer/upload-document", unlicensedminer.upload_document rt);
        ("/contact/submit", contact.submit_contact rt) ])%list.

(** a program whose calls are all queries *)
Inductive read_only {A} : remote A -> Prop :=
| read_only_done a : read_only (Done a)
| read_only_select q k :
    (forall reply, read_only (k reply)) -> read_only (Select q k).

(** a program all of whose queries select on one column, [id] or
    [miner_id], being equal to [user_id] *)
Inductive scoped {A} (user_id : string) : remote A -> Prop :=
| scoped_done a : scoped user_id (Done a)
| scoped_select q k :
    (q_eq q = [("id", user_id)] \/ q_eq q = [("miner_id", user_id)]) ->
    (forall reply, scoped user_id (k reply)) ->
    scoped user_id (Select q k).

(** the world after the first entry of the outage schedule is consumed *)
Definition after_outage (w : world) : world :=
  mkworld (tables w) (buckets w) (tl (outages w)) (base_url w).

(** the object stored under a path of a bucket *)
Definition stored_object (w : world) (bucket path : string) : option string :=
  buckets w !! bucket ≫= (fun objects => objects !! path).

(** the path under which save_file stores a file *)
Definition relay_path (rt : runtime) (f : file) : string :=
  uuid4 rt +:+ "." +:+ List.last (Str.split "." (secure_filename rt (filename f))) "".

(** the row submit_contact inserts *)
Definition contact_row (name email message : scalar) : row :=
  list_to_map [("name", name); ("email", email); ("message", message)].

(** day and month of a calendar date are parsed back from two digits *)
Definition month_day_parsed (m d : Z) : bool :=
  match Date.first_alt Date.m_directive
          (Str.pad2 m +:+ "-" +:+ Str.pad2 d)
          (fun m s3 =>
             match Date.expect_dash s3 with
             | None => None
             | Some s4 =>
                 Date.first_alt Date.d_directive s4 (fun d s5 => Some (m, d, s5))
             end) with
  | Some (m', d', EmptyString) => (m' =? m) && (d' =? d)
  | _ => false
  end.

(** the characters of a date written as YYYY-MM-DD *)
Definition date_char (c : ascii) : bool := Str.is_digit c || (Str.code c =? 45)%N.

(** a number that is not below zero: an int from 0 on, or a float that is
    not a NaN and has no sign bit *)
Definition not_negative (x : pynum) : Prop :=
  match x with
  | PInt n => 0 <= n
  | PFloat f => Float.is_nan f = false /\ Float.sign f = false
  end.

(** every response a program can end with satisfies [P] *)
Inductive ends_in {A} (P : A -> Prop) : remote A -> Prop :=
| ends_in_done a : P a -> ends_in P (Done a)
| ends_in_select q k :
    (forall reply, ends_in P (k reply)) -> ends_in P (Select q k)
| ends_in_insert table r k :
    (forall reply, ends_in P (k reply)) -> ends_in P (Insert table r k)
| ends_in_list_buckets k :
    (forall reply, ends_in P (k reply)) -> ends_in P (ListBuckets k)
| ends_in_upload bucket path content options k :
    (forall reply, ends_in P (k reply)) ->
    ends_in P (Upload bucket path content options k)
| ends_in_get_public_url bucket path k :
    (forall reply, ends_in P (k reply)) -> ends_in P (GetPublicUrl bucket path k).

(** the status codes each route returns *)
Definition route_statuses : list (string * list Z) :=
  [ ("/miner/license", [200; 400; 401; 404; 500]);
    ("/miner/royalty", [200; 401; 404; 500]);
    ("/miner/announcements", [200; 401; 500]);
    ("/unlicensedminer/status", [200; 401; 404; 500]);
    ("/unlicensedminer/application", [200; 401; 404; 500]);
    ("/unlicensedminer/documents", [200; 401; 500]);
    ("/unlicensedminer/announcements", [200; 401; 500]);
    ("/license/get", [200; 401; 500]);
    ("/contact/get", [200; 500]);
    ("/unlicensedminer/upload-document", [200; 400; 401; 500]);
    ("/contact/submit", [201; 400; 500]) ].

(** the status is one of [codes], and the body has an error entry exactly
    when the status is 400 or more *)
Definition answer_contract (codes : list Z) (resp : response) : Prop :=
  In (status resp) codes /\ (is_error_body resp = true <-> 400 <= status resp).

(** * Properties *)

(** ** Requests without an identifier *)

Lemma py_or_none : py_or None None = None.
Proof. reflexivity. Qed.

Lemma miner_anonymous req :
  cookies req !! "userId" = None -> headers req !! "X-User-ID" = None ->
  minerpage.get_user_id req = None.
Proof. intros Hc Hh. unfold minerpage.get_user_id. now rewrite Hc, Hh. Qed.

Lemma unlicensed_anonymous req :
  cookies req !! "userId" = None -> headers req !! "X-User-ID" = None ->
  unlicensedminer.get_user_id req = None.
Proof. intros Hc Hh. unfold unlicensedminer.get_user_id. now rewrite Hc, Hh. Qed.

(** C5: a request to any /miner/... or /unlicensedminer/... route that has
    neither the userId cookie nor the X-User-ID header is answered 401 with
    an error body, and the handler is a leaf: no call on the client comes
    before the answer, so no world is touched. *)
Theorem anonymous_request_is_401 (rt : runtime) (req : request)
    (path : string) (h : handler) :
  In (path, h) (miner_routes ++ unlicensedminer_routes rt)%list ->
  cookies req !! "userId" = None ->
  headers req !! "X-User-ID" = None ->
  exists resp,
    h req = Done resp /\ status resp = 401 /\ is_error_body resp = true
    /\ makes_no_call (h req) = true
    /\ forall w, run (h req) w = (resp, w).
Proof.
  intros Hin Hc Hh.
  pose proof (miner_anonymous req Hc Hh) as Hm.
  pose proof (unlicensed_anonymous req Hc Hh) as Hu.
  simpl in Hin.
  repeat (destruct Hin as [Heq | Hin];
          [ injection Heq as _ <-
          | ]);
    try contradiction.
  all: unfold minerpage.get_license, minerpage.get_royalty,
         minerpage.get_announcements, unlicensedminer.get_user_status,
         unlicensedminer.get_application_details, unlicensedminer.get_documents,
         unlicensedminer.upload_document, unlicensedminer.get_announcements.
  all: rewrite ?Hm, ?Hu; simpl.
  all: eexists; split; [ reflexivity | repeat split; reflexivity ].
Qed.

Lemma anonymous_request_is_401_witness :
  exists resp,
    minerpage.get_license Sample.anonymous = Done resp /\ status resp = 401
    /\ is_error_body resp = true
    /\ makes_no_call (minerpage.get_license Sample.anonymous) = true
    /\ forall w, run (minerpage.get_license Sample.anonymous) w = (resp, w).
Proof.
  apply (anonymous_request_is_401 Sample.rt Sample.anonymous "/miner/license").
  - simpl. left. reflexivity.
  - reflexivity.
  - reflexivity.
Defined.

(** ** Contact messages *)

Lemma submit_contact_falsy_field rt req fields key :
  body req = Ok (Object fields) ->
  In key ["name"; "email"; "message"] ->
  truthy_scalar (dict_get fields key) = false ->
  contact.submit_contact rt req = Done missing_fields.
Proof.
  intros Hb Hk Hf. unfold contact.submit_contact. rewrite Hb. simpl.
  simpl in Hk.
  destruct Hk as [<- | [<- | [<- | []]]]; rewrite Hf;
    rewrite ?andb_false_r; reflexivity.
Qed.



Lemma project_star (r : row) : project "*" r = r.
Proof. reflexivity. Qed.

Lemma filter_no_condition (rows : list row) :
  List.filter (matches []) rows = rows.
Proof.
  induction rows as [| r rows IH]; [reflexivity |].
  simpl. now rewrite IH.
Qed.

Lemma project_star_all (rows : list row) : project "*" <$> rows = rows.
Proof.
  induction rows as [| r rows IH]; [reflexivity |].
  simpl. rewrite project_star. f_equal. exact IH.
Qed.

Lemma select_all_contacts w rows :
  tables w !! "contact_data" = Some rows ->
  do_select contacts_query w = Ok rows.
Proof.
  intros H. unfold do_select. simpl. rewrite H.
  now rewrite filter_no_condition, project_star_all.
Qed.

Lemma run_select_up {A} q (k : result (list row) -> remote A) w :
  outages w = [] ->
  run (Select q k) w = run (k (do_select q w)) w.
Proof.
  intros H. simpl. unfold next_outage. rewrite H. reflexivity.
Qed.

(** C9: when the query of /contact/get succeeds and the table has no row,
    the answer is 500 with the error "Failed to fetch contacts", not 200
    with an empty list; whatever the client replies, and in whatever state
    the service is, a 200 means that at least one row came back. *)
Theorem get_contacts_empty_is_500 (rt : runtime) :
  (exists k,
     contact.get_contacts rt = Select contacts_query k
     /\ k (Ok []) = Done no_contacts
     /\ forall reply resp,
          k reply = Done resp -> status resp = 200 ->
          exists r rows, reply = Ok (r :: rows))
  /\ (forall w,
        outages w = [] -> tables w !! "contact_data" = Some [] ->
        run (contact.get_contacts rt) w = (no_contacts, w))
  /\ (forall w,
        status (fst (run (contact.get_contacts rt) w)) = 200 ->
        exists r rows, tables w !! "contact_data" = Some (r :: rows)).
Proof.
  split; [| split].
  - eexists. split; [reflexivity |]. split; [reflexivity |].
    intros [[| r rows] | e] resp Hk Hs; simpl in Hk;
      injection Hk as <-; try discriminate Hs.
    now exists r, rows.
  - intros w Hup Hempty. unfold contact.get_contacts.
    rewrite run_select_up by exact Hup.
    fold contacts_query. now rewrite (select_all_contacts w []).
  - intros w. unfold contact.get_contacts. fold contacts_query.
    simpl. destruct (next_outage w) as [down w'] eqn:Hn.
    assert (Ht : tables w' = tables w).
    { unfold next_outage in Hn. destruct (outages w); injection Hn as _ <-; reflexivity. }
    destruct down; simpl; [discriminate |].
    destruct (tables w' !! "contact_data") as [rows |] eqn:Hrows.
    + rewrite (select_all_contacts w' rows Hrows). rewrite <- Ht.
      destruct rows as [| r rows]; simpl; [discriminate |].
      intros _. now exists r, rows.
    + unfold do_select. simpl. rewrite Hrows. simpl. discriminate.
Qed.

Lemma get_contacts_empty_is_500_witness :
  run (contact.get_contacts Sample.rt) Sample.db = (no_contacts, Sample.db).
Proof.
  apply (get_contacts_empty_is_500 Sample.rt); reflexivity.
Defined.

(** ** Characters and texts *)

Ltac each_char c := destruct c as [[] [] [] [] [] [] [] []].

Lemma lower_char_digit c : Str.is_digit (Str.lower_char c) = Str.is_digit c.
Proof. each_char c; reflexivity. Qed.

Lemma lower_char_digit_or_dot c :
  Str.is_digit_or_dot (Str.lower_char c) = Str.is_digit_or_dot c.
Proof. each_char c; reflexivity. Qed.

Lemma lower_char_fixes_digit_or_dot c :
  Str.is_digit_or_dot c = true -> Str.lower_char c = c.
Proof. each_char c; (reflexivity || discriminate). Qed.

Lemma digit_or_dot_not_space c :
  Str.is_digit_or_dot c = true -> Str.is_space c = false.
Proof. each_char c; (reflexivity || discriminate). Qed.

Lemma digit_is_digit_or_dot c :
  Str.is_digit c = true -> Str.is_digit_or_dot c = true.
Proof. unfold Str.is_digit_or_dot. now intros ->. Qed.

Lemma any_char_lower_digit s :
  Str.any_char Str.is_digit (Str.lower s) = Str.any_char Str.is_digit s.
Proof.
  induction s as [| c s IH]; [reflexivity |].
  simpl. now rewrite lower_char_digit, IH.
Qed.

Lemma search_none p s :
  Str.any_char p s = false -> Str.re_search_run p s = None.
Proof.
  unfold Str.re_search_run. induction s as [| c s IH]; [reflexivity |].
  simpl. intros H. apply orb_false_elim in H as [Hc Hs].
  rewrite Hc. simpl. now apply IH.
Qed.

(** ** parse_period *)

Lemma parse_period_no_digit s :
  Str.any_char Str.is_digit s = false ->
  minerpage.parse_period (SStr s) = PInt 1.
Proof.
  intros H. unfold minerpage.parse_period, minerpage.parse_period_try. simpl.
  rewrite search_none; [reflexivity |].
  now rewrite any_char_lower_digit.
Qed.



(** ** The helpers and exceptions *)

(** C8, at the input on which it fails: an integer beyond the range of the
    floats makes clean_numeric_value raise OverflowError, where the claim
    has it return a float or None. *)
Theorem clean_numeric_value_raises_on_huge_int :
  license.clean_numeric_value (SInt (10 ^ 400)) = Raise OverflowError.
Proof. vm_compute. reflexivity. Qed.

Lemma of_str_raises s e : Float.of_str s = Raise e -> e = ValueError.
Proof.
  unfold Float.of_str. destruct (_ && _ && _); [discriminate |].
  intros H. now injection H as <-.
Qed.

Lemma of_int_raises n e : Float.of_int n = Raise e -> e = OverflowError.
Proof.
  unfold Float.of_int. destruct (Float.is_infinite _); [| discriminate].
  intros H. now injection H as <-.
Qed.

(** that conversion is the only place where the cleaner raises: texts,
    None, floats and the integers within the range of the floats give a
    float or None *)
Lemma clean_numeric_value_raises_only_there v e :
  license.clean_numeric_value v = Raise e ->
  e = OverflowError
  /\ exists n, v = VScalar (SInt n) /\ Float.of_int n = Raise OverflowError.
Proof.
  destruct v as [[| [] | n | s] | f | d]; simpl; try discriminate.
  - destruct (Float.of_int n) as [f |] eqn:Hn; [discriminate |].
    apply of_int_raises in Hn as Hov. subst. simpl. intros H.
    injection H as <-. split; [reflexivity |]. now exists n.
  - destruct (Str.re_search_run _ _) as [group |]; [| discriminate].
    destruct (Float.of_str group) as [f | e'] eqn:Hs; [discriminate |].
    apply of_str_raises in Hs as ->. discriminate.
Qed.

(** ** The expiry date of a license *)

(** *** Adding days

    [fromordinal] inverts [toordinal]: the 146097 days of one cycle of 400
    years are checked one by one, the other cycles are shifts of it. *)

Lemma fromordinal_cycle o :
  Date.fromordinal o
  = from_cycle ((o - 1) / Date.DI400Y) ((o - 1) mod Date.DI400Y).
Proof. reflexivity. Qed.

Lemma all_from_spec f k :
  forall start, all_from f start k = true ->
  forall n, start <= n < start + Z.of_nat k -> f n = true.
Proof.
  induction k as [| k IH]; intros start H n Hn; [lia |].
  simpl in H. apply andb_true_iff in H as [H1 H2].
  destruct (Z.eq_dec n start) as [-> | Hne]; [exact H1 |].
  apply (IH (start + 1)); [exact H2 | lia].
Qed.

Lemma cycle_checked : all_from cycle_day_ok 0 (Z.to_nat 146097) = true.
Proof. vm_compute. reflexivity. Qed.

Lemma is_leap_period k y : Date.is_leap (400 * k + y) = Date.is_leap y.
Proof.
  unfold Date.is_leap.
  replace ((400 * k + y) mod 4) with (y mod 4) by (Z.div_mod_to_equations; lia).
  replace ((400 * k + y) mod 100) with (y mod 100) by (Z.div_mod_to_equations; lia).
  replace ((400 * k + y) mod 400) with (y mod 400) by (Z.div_mod_to_equations; lia).
  reflexivity.
Qed.

Lemma days_in_month_period k y m :
  Date.days_in_month (400 * k + y) m = Date.days_in_month y m.
Proof. unfold Date.days_in_month. now rewrite is_leap_period. Qed.

Lemma days_before_year_period k y :
  Date.days_before_year (400 * k + y) = 146097 * k + Date.days_before_year y.
Proof. unfold Date.days_before_year. Z.div_mod_to_equations. lia. Qed.

Lemma toordinal_period k y m d :
  Date.toordinal (Date.mk (400 * k + y) m d)
  = 146097 * k + Date.toordinal (Date.mk y m d).
Proof.
  unfold Date.toordinal, Date.days_before_month. simpl.
  rewrite days_before_year_period, is_leap_period. lia.
Qed.

Lemma from_cycle_period k n :
  from_cycle k n
  = Date.mk (400 * k + Date.year (from_cycle 0 n))
            (Date.month (from_cycle 0 n)) (Date.day (from_cycle 0 n)).
Proof.
  unfold from_cycle.
  set (n100 := n / Date.DI100Y). set (r100 := n mod Date.DI100Y).
  set (n4 := r100 / Date.DI4Y). set (r4 := r100 mod Date.DI4Y).
  set (n1 := r4 / 365). set (r := r4 mod 365).
  cbv zeta.
  destruct ((n1 =? 4) || (n100 =? 4)); [simpl; f_equal; lia |].
  set (p := nth _ _ _ + _).
  replace (k * 400 + 1 + n100 * 100 + n4 * 4 + n1)
    with (400 * k + (0 * 400 + 1 + n100 * 100 + n4 * 4 + n1)) by lia.
  rewrite days_in_month_period.
  destruct (r <? p); simpl; f_equal; lia.
Qed.

Lemma cycle_day n :
  0 <= n < 146097 -> Date.toordinal (from_cycle 0 n) = n + 1.
Proof.
  intros Hn.
  assert (H : cycle_day_ok n = true).
  { apply (all_from_spec cycle_day_ok (Z.to_nat 146097) 0 cycle_checked).
    rewrite Z2Nat.id; lia. }
  unfold cycle_day_ok in H. apply andb_true_iff in H as [H _].
  now apply Z.eqb_eq in H.
Qed.

Lemma toordinal_fromordinal o : Date.toordinal (Date.fromordinal o) = o.
Proof.
  rewrite fromordinal_cycle, from_cycle_period.
  destruct (from_cycle 0 ((o - 1) mod Date.DI400Y)) as [y m d] eqn:E.
  cbn [Date.year Date.month Date.day].
  rewrite toordinal_period, <- E, cycle_day.
  - pose proof (Z.div_mod (o - 1) Date.DI400Y ltac:(discriminate)) as Hdiv.
    change Date.DI400Y with 146097 in *. lia.
  - apply Z.mod_pos_bound. reflexivity.
Qed.

(** [d + timedelta(days=n)], when it is a date, is the date [n] days on *)
Lemma add_days_ordinal d n e :
  Date.add_days d n = Ok e -> Date.toordinal e = Date.toordinal d + n.
Proof.
  unfold Date.add_days. destruct (999999999 <? Z.abs n); [discriminate |].
  destruct (_ && _); [| discriminate].
  intros H. injection H as <-. apply toordinal_fromordinal.
Qed.




(** ** File extensions in the two upload paths *)

Lemma split_not_nil sep s : Str.split sep s <> [].
Proof.
  destruct s as [| c s]; simpl; [discriminate |].
  destruct (Ascii.eqb c sep); [discriminate |].
  destruct (Str.split sep s); discriminate.
Qed.

Lemma prefix_dot c s :
  String.prefix "." (String c s) = Ascii.eqb c ".".
Proof.
  change (String.prefix "." (String c s))
    with (if ascii_dec "." c then String.prefix "" s else false).
  destruct (ascii_dec "." c) as [<- | Hne].
  - rewrite Ascii.eqb_refl. now destruct s.
  - symmetry. apply Ascii.eqb_neq. congruence.
Qed.

Lemma contains_dot_split s :
  Str.contains "." s = true ->
  exists a b rest, Str.split "." s = a :: b :: rest.
Proof.
  induction s as [| c s IH]; [discriminate |].
  cbn [Str.contains Str.split]. rewrite prefix_dot.
  destruct (Ascii.eqb c ".") eqn:Hc.
  - intros _. destruct (Str.split "." s) as [| b rest] eqn:Hs.
    + now apply split_not_nil in Hs.
    + now exists "", b, rest.
  - simpl. intros H. destruct (IH H) as (a & b & rest & ->).
    now exists (String c a), b, rest.
Qed.

(** the text [allowed_file] tests is the last piece [split] gives, the one
    both upload paths put after the generated name *)
Lemma rsplit1_last s :
  Str.contains "." s = true ->
  nth 1 (Str.rsplit1 "." s) "" = List.last (Str.split "." s) "".
Proof.
  intros H. destruct (contains_dot_split s H) as (a & b & rest & Hs).
  unfold Str.rsplit1. rewrite Hs. reflexivity.
Qed.

Lemma disallowed_file name :
  (Str.contains "." name = true ->
   Str.lower (List.last (Str.split "." name) "") ∉ license.ALLOWED_EXTENSIONS) ->
  license.allowed_file name = false.
Proof.
  intros H. unfold license.allowed_file.
  destruct (Str.contains "." name) eqn:Hdot; [| reflexivity].
  rewrite rsplit1_last by exact Hdot. simpl.
  apply bool_decide_eq_false. now apply H.
Qed.

(** C7: a file whose extension is not pdf, png, jpg or jpeg is turned down by
    save_file of the license flow, which makes no call on the storage and
    returns None; upload_document of the unlicensed-miner flow does not look
    at the extension: for a named file of an identified miner its first step
    is the upload of the content, and when storage and database accept their
    calls the object is stored, the document row is inserted and the answer
    is 200. *)
Theorem extension_checked_in_license_flow_only (rt : runtime) (f : file)
    (folder : string) :
  (Str.contains "." (filename f) = true ->
   Str.lower (List.last (Str.split "." (filename f)) "")
     ∉ license.ALLOWED_EXTENSIONS) ->
  (license.save_file rt (Some f) folder = Done None
   /\ forall w, run (license.save_file rt (Some f) folder) w = (None, w))
  /\ forall (req : request),
       falsy (unlicensedminer.get_user_id req) = false ->
       files req !! "file" = Some f ->
       filename f <> "" ->
       let user_id := default "" (unlicensedminer.get_user_id req) in
       let description := default "" (form req !! "description") in
       let path := uuid4 rt +:+ "." +:+ List.last (Str.split "." (filename f)) "" in
       (exists k,
          unlicensedminer.upload_document rt req
          = Upload "documents" path (content f) [] k)
       /\ forall (w : world) (objects : gmap string string) (rows : list row),
            outages w = [] ->
            buckets w !! "documents" = Some objects ->
            objects !! path = None ->
            tables w !! "documents" = Some rows ->
            let url := public_url w "documents" path in
            run (unlicensedminer.upload_document rt req) w
            = (unlicensedminer.uploaded url,
               mkworld
                 (<["documents" :=
                      (rows ++ [unlicensedminer.document_data rt user_id f
                                  description url])%list]> (tables w))
                 (<["documents" := <[path := content f]> objects]> (buckets w))
                 [] (base_url w)).
Proof.
  intros Hext. split.
  - assert (Hs : license.save_file rt (Some f) folder = Done None).
    { unfold license.save_file.
      rewrite (disallowed_file _ Hext), andb_false_r. reflexivity. }
    rewrite Hs. split; reflexivity.
  - intros req Hid Hfile Hname user_id description path.
    assert (Hne : String.eqb (filename f) "" = false)
      by now apply String.eqb_neq.
    unfold unlicensedminer.upload_document.
    rewrite Hid, Hfile, Hne.
    fold user_id description path.
    split; [eexists; reflexivity |].
    intros w objects rows Hup Hbucket Hfree Hrows.
    cbn [run]. unfold next_outage. rewrite Hup.
    unfold do_upload. rewrite Hbucket, Hfree.
    cbn [attempt run]. unfold next_outage. cbn [outages set_buckets].
    rewrite Hup. unfold do_insert. cbn [tables set_buckets].
    rewrite Hrows. cbn [attempt run].
    unfold set_tables, set_buckets, public_url.
    cbn [tables buckets outages base_url]. rewrite Hup. reflexivity.
Qed.

Lemma extension_checked_in_license_flow_only_witness :
  license.save_file Sample.rt (Some Sample.exe) "uploads" = Done None
  /\ exists w,
       run (unlicensedminer.upload_document Sample.rt
              (Sample.miner {[ "file" := Sample.exe ]})) Sample.db
       = (unlicensedminer.uploaded
            "https://project.supabase.co/storage/v1/object/public/documents/7f0c.exe",
          w)
       /\ buckets w !! "documents" = Some {[ "7f0c.exe" := "MZ" ]}
       /\ length <$> tables w !! "documents" = Some 1%nat.
Proof.
  assert (Hext : Str.contains "." (filename Sample.exe) = true ->
                 Str.lower (List.last (Str.split "." (filename Sample.exe)) "")
                   ∉ license.ALLOWED_EXTENSIONS)
    by (intros _; vm_compute; intros H; discriminate H).
  destruct (extension_checked_in_license_flow_only Sample.rt Sample.exe "uploads" Hext)
    as [[Hsave _] Hupload].
  split; [exact Hsave |].
  destruct (Hupload (Sample.miner {[ "file" := Sample.exe ]})) as [_ Hrun];
    [reflexivity | reflexivity | discriminate |].
  eexists. split.
  - apply (Hrun Sample.db ∅ []); reflexivity.
  - split; reflexivity.
Defined.

(** ** Signs of converted floats *)

Lemma iter_pos_invariant {A} (P : A -> Prop) (f : A -> A) :
  (forall x, P x -> P (f x)) ->
  forall p x, P x -> P (SpecFloat.iter_pos f p x).
Proof.
  intros Hf. induction p as [p IH | p IH |]; intros x Hx; simpl; auto.
Qed.

Lemma shr_1_nonneg mrs : 0 <= shr_m mrs -> 0 <= shr_m (shr_1 mrs).
Proof.
  destruct mrs as [m r s]. simpl.
  destruct m as [| [p | p |] | [p | p |]]; simpl; lia.
Qed.

Lemma shr_fexp_nonneg m e l :
  0 <= m -> 0 <= shr_m (fst (shr_fexp Float.prec Float.emax m e l)).
Proof.
  intros Hm. unfold shr_fexp, shr.
  assert (H0 : 0 <= shr_m (shr_record_of_loc m l))
    by (destruct l as [| []]; exact Hm).
  destruct (fexp Float.prec Float.emax (Zdigits2 m + e) - e) as [| p | p];
    simpl; try exact H0.
  apply (iter_pos_invariant (fun mrs => 0 <= shr_m mrs)); [| exact H0].
  exact shr_1_nonneg.
Qed.

Lemma round_nearest_even_nonneg m l : 0 <= m -> 0 <= round_nearest_even m l.
Proof.
  intros Hm. destruct l as [| []]; simpl; try lia.
  destruct (Z.even m); lia.
Qed.

Lemma binary_round_aux_sign s m e l :
  0 <= m ->
  Float.is_nan (binary_round_aux Float.prec Float.emax s m e l) = false
  /\ Float.sign (binary_round_aux Float.prec Float.emax s m e l) = s.
Proof.
  intros Hm. unfold binary_round_aux.
  pose proof (shr_fexp_nonneg m e l Hm) as H1.
  destruct (shr_fexp Float.prec Float.emax m e l) as [mrs' e'].
  simpl in H1.
  pose proof (shr_fexp_nonneg _ e' loc_Exact
                (round_nearest_even_nonneg _ (loc_of_shr_record mrs') H1)) as H2.
  destruct (shr_fexp Float.prec Float.emax
              (round_nearest_even (shr_m mrs') (loc_of_shr_record mrs')) e' loc_Exact)
    as [mrs'' e''].
  simpl in H2.
  destruct (shr_m mrs'') as [| p | p]; [now split | | lia].
  destruct (e'' <=? Float.emax - Float.prec); now split.
Qed.

Lemma of_ratio_sign s a b :
  0 <= a -> 0 < b ->
  Float.is_nan (Float.of_ratio s a b) = false
  /\ Float.sign (Float.of_ratio s a b) = s.
Proof.
  intros Ha Hb. unfold Float.of_ratio.
  destruct (a =? 0); [now split |].
  pose proof (Z.div_eucl_eq (a * 2 ^ (Z.log2 b + 64)) b ltac:(lia)) as Heq.
  pose proof (Z.mod_pos_bound (a * 2 ^ (Z.log2 b + 64)) b Hb) as Hr.
  unfold Z.modulo in Hr.
  destruct (Z.div_eucl (a * 2 ^ (Z.log2 b + 64)) b) as [q r].
  apply binary_round_aux_sign.
  assert (0 <= a * 2 ^ (Z.log2 b + 64)) by (apply Z.mul_nonneg_nonneg; lia).
  nia.
Qed.

Lemma of_int_sign n f :
  Float.of_int n = Ok f ->
  Float.is_nan f = false /\ Float.sign f = (n <? 0).
Proof.
  unfold Float.of_int. intros H.
  destruct (of_ratio_sign (n <? 0) (Z.abs n) 1 ltac:(lia) ltac:(lia)) as [Hn Hs].
  destruct (Float.is_infinite _); [discriminate |].
  injection H as <-. now split.
Qed.

Lemma filter_digits_all s :
  Str.all_chars Str.is_digit (Float.filter_chars Str.is_digit s) = true.
Proof.
  induction s as [| c s IH]; [reflexivity |].
  simpl. destruct (Str.is_digit c) eqn:Hc; [| exact IH].
  simpl. now rewrite Hc.
Qed.

Lemma digit_value_nonneg c : Str.is_digit c = true -> 0 <= Str.digit_value c.
Proof.
  unfold Str.is_digit, Str.in_range, Str.digit_value.
  intros H. apply andb_true_iff in H as [H _]. apply N.leb_le in H. lia.
Qed.

Lemma int_of_digits_nonneg s :
  forall acc, 0 <= acc -> Str.all_chars Str.is_digit s = true ->
              0 <= Str.int_of_digits acc s.
Proof.
  induction s as [| c s IH]; intros acc Hacc H; [exact Hacc |].
  simpl in *. apply andb_true_iff in H as [Hc Hs].
  apply IH; [| exact Hs].
  pose proof (digit_value_nonneg c Hc). lia.
Qed.

Lemma of_str_sign s f :
  Float.of_str s = Ok f ->
  Float.is_nan f = false /\ Float.sign f = false.
Proof.
  unfold Float.of_str. intros H.
  destruct (_ && _ && _); [| discriminate].
  injection H as <-.
  apply of_ratio_sign.
  - apply int_of_digits_nonneg; [lia | apply filter_digits_all].
  - apply Z.pow_pos_nonneg; lia.
Qed.

Lemma clean_string_cases s :
  license.clean_numeric_value (SStr s) = Ok None
  \/ exists f, license.clean_numeric_value (SStr s) = Ok (Some f)
               /\ Float.is_nan f = false /\ Float.sign f = false.
Proof.
  unfold license.clean_numeric_value.
  destruct (Str.re_search_run _ _) as [group |]; [| now left].
  destruct (Float.of_str group) as [f | e] eqn:Hf.
  - right. exists f. split; [reflexivity |]. now apply (of_str_sign group).
  - left. unfold Float.of_str in Hf.
    destruct (_ && _ && _); [discriminate |]. now injection Hf as <-.
Qed.

(** C10: on a text, clean_numeric_value gives None or a float that is not
    negative (and not a NaN): the minus sign is not part of the pattern, so
    "-100" gives 100.0. A number keeps its sign: the integer -100 gives
    -100.0, every converted integer has the sign of the integer, and a
    float is returned as it is. *)
Theorem clean_numeric_value_sign :
  (forall s,
     license.clean_numeric_value (SStr s) = Ok None
     \/ exists f, license.clean_numeric_value (SStr s) = Ok (Some f)
                  /\ Float.is_nan f = false /\ Float.sign f = false)
  /\ license.clean_numeric_value (SStr "-100") = Ok (Some (Prim2SF 100))
  /\ license.clean_numeric_value (SInt (-100)) = Ok (Some (Prim2SF (-100)))
  /\ (forall n f, license.clean_numeric_value (SInt n) = Ok (Some f) ->
                  Float.is_nan f = false /\ Float.sign f = (n <? 0))
  /\ (forall f, license.clean_numeric_value (VFloat f) = Ok (Some f)).
Proof.
  split; [exact clean_string_cases |].
  split; [vm_compute; reflexivity |].
  split; [vm_compute; reflexivity |].
  split; [| reflexivity].
  intros n f H. simpl in H.
  destruct (Float.of_int n) as [g |] eqn:Hg; [| discriminate].
  simpl in H. injection H as <-. now apply of_int_sign.
Qed.

Lemma clean_numeric_value_sign_witness :
  Float.is_nan (Prim2SF (-100)) = false
  /\ Float.sign (Prim2SF (-100)) = (-100 <? 0).
Proof.
  destruct clean_numeric_value_sign as (_ & _ & Hint & Hsign & _).
  exact (Hsign (-100) (Prim2SF (-100)) Hint).
Defined.

(** ** Texts around a numeral

    The cleaning steps of clean_numeric_value keep a numeral that stands
    between two texts free of digits and dots where it is. *)

Lemma any_char_app p a b :
  Str.any_char p (a +:+ b) = Str.any_char p a || Str.any_char p b.
Proof.
  induction a as [| c a IH]; [reflexivity |].
  simpl. now rewrite IH, orb_assoc.
Qed.

Lemma free_cons p c s : free p (String c s) -> p c = false /\ free p s.
Proof. simpl. intros H. now apply orb_false_elim in H. Qed.

Lemma free_drop_while p q s : free p s -> free p (Str.drop_while q s).
Proof.
  induction s as [| c s IH]; [easy |].
  intros H. simpl. destruct (q c); [| exact H].
  apply IH. now apply free_cons in H.
Qed.

Lemma free_take_while p q s : free p s -> free p (Str.take_while q s).
Proof.
  induction s as [| c s IH]; [easy |].
  intros H. apply free_cons in H as [Hc Hs]. simpl.
  destruct (q c); [| reflexivity]. simpl. rewrite Hc. now apply IH.
Qed.

Lemma rstrip_cons c s :
  Str.is_space c = false -> Str.rstrip (String c s) = String c (Str.rstrip s).
Proof. intros H. simpl. rewrite H. now destruct (Str.rstrip s). Qed.

Lemma free_rstrip p s : free p s -> free p (Str.rstrip s).
Proof.
  induction s as [| c s IH]; [easy |].
  intros H. apply free_cons in H as [Hc Hs]. specialize (IH Hs). simpl.
  destruct (Str.rstrip s) as [| d r].
  - destruct (Str.is_space c); [reflexivity |]. simpl. now rewrite Hc.
  - simpl in *. now rewrite Hc, IH.
Qed.

Lemma free_strip p s : free p s -> free p (Str.strip s).
Proof. intros H. apply free_rstrip, free_drop_while, H. Qed.

Lemma free_replace p old s :
  forall k, free p s -> free p (Str.replace_from old "" k s).
Proof.
  induction s as [| c s IH]; intros k H; [easy |].
  apply free_cons in H as [Hc Hs]. cbn [Str.replace_from].
  destruct k as [| k]; [| now apply IH].
  destruct (String.prefix old (String c s)); [now apply IH |].
  cbn [Str.any_char]. rewrite Hc. now apply IH.
Qed.

Lemma free_lower_digit s : free Str.is_digit s -> free Str.is_digit (Str.lower s).
Proof. now rewrite any_char_lower_digit. Qed.

Lemma free_lower s :
  free Str.is_digit_or_dot s -> free Str.is_digit_or_dot (Str.lower s).
Proof.
  induction s as [| c s IH]; [easy |].
  intros H. apply free_cons in H as [Hc Hs]. simpl.
  now rewrite lower_char_digit_or_dot, Hc, IH.
Qed.

Section Numeral.

(** a non-empty run of digits and dots, and what stands after it *)
Variables (num b : string).
Hypothesis num_chars : Str.all_chars Str.is_digit_or_dot num = true.
Hypothesis num_not_empty : num <> "".

Let D := Str.is_digit_or_dot.

Lemma num_head : exists d rest, num = String d rest /\ D d = true.
Proof.
  destruct num as [| d rest]; [contradiction |].
  exists d, rest. split; [reflexivity |].
  simpl in num_chars. now apply andb_true_iff in num_chars.
Qed.

Lemma lower_numeral s :
  Str.all_chars D s = true -> Str.lower s = s.
Proof.
  induction s as [| c s IH]; [reflexivity |].
  simpl. intros H. apply andb_true_iff in H as [Hc Hs].
  now rewrite lower_char_fixes_digit_or_dot, IH.
Qed.

Lemma lower_app x y : Str.lower (x +:+ y) = Str.lower x +:+ Str.lower y.
Proof. induction x as [| c x IH]; [reflexivity |]. simpl. now rewrite IH. Qed.

Lemma lower_around a :
  Str.lower (a +:+ num +:+ b) = Str.lower a +:+ num +:+ Str.lower b.
Proof. now rewrite !lower_app, (lower_numeral num num_chars). Qed.

Lemma lstrip_around a :
  Str.lstrip (a +:+ num +:+ b) = Str.lstrip a +:+ num +:+ b.
Proof.
  unfold Str.lstrip. induction a as [| c a IH].
  - destruct num_head as (d & rest & -> & Hd). simpl.
    now rewrite (digit_or_dot_not_space d Hd).
  - simpl. now destruct (Str.is_space c).
Qed.

Lemma rstrip_numeral s :
  Str.all_chars D s = true -> Str.rstrip (s +:+ b) = s +:+ Str.rstrip b.
Proof.
  induction s as [| c s IH]; [reflexivity |].
  simpl. intros H. apply andb_true_iff in H as [Hc Hs].
  change (Str.rstrip (String c (s +:+ b)) = String c (s +:+ Str.rstrip b)).
  rewrite rstrip_cons by now apply digit_or_dot_not_space.
  now rewrite IH.
Qed.

Lemma rstrip_app_kept x y :
  Str.rstrip y <> "" -> Str.rstrip (x +:+ y) = x +:+ Str.rstrip y.
Proof.
  intros Hy. induction x as [| c x IH]; [reflexivity |].
  change (Str.rstrip (String c (x +:+ y)) = String c (x +:+ Str.rstrip y)).
  cbn [Str.rstrip]. rewrite IH.
  destruct (x +:+ Str.rstrip y) eqn:E; [| reflexivity].
  destruct x; [simpl in E; contradiction | discriminate].
Qed.

Lemma rstrip_around a :
  Str.rstrip (a +:+ num +:+ b) = a +:+ num +:+ Str.rstrip b.
Proof.
  rewrite rstrip_app_kept; rewrite (rstrip_numeral num num_chars); [reflexivity |].
  destruct num_head as (d & rest & -> & _). discriminate.
Qed.

Lemma strip_around a :
  Str.strip (a +:+ num +:+ b) = Str.lstrip a +:+ num +:+ Str.rstrip b.
Proof. unfold Str.strip. now rewrite lstrip_around, rstrip_around. Qed.

Variable old : string.
Hypothesis old_free : free D old.
Hypothesis old_not_empty : old <> "".

Lemma prefix_cons c x d y :
  String.prefix (String c x) (String d y) = true -> c = d /\ String.prefix x y = true.
Proof.
  change (String.prefix (String c x) (String d y))
    with (if ascii_dec c d then String.prefix x y else false).
  destruct (ascii_dec c d); [now split | discriminate].
Qed.

(** an occurrence of [old] that starts before the numeral ends before it *)
Lemma occurrence_before_numeral :
  forall tok a, free D tok -> free D a ->
    String.prefix tok (a +:+ num +:+ b) = true ->
    (String.length tok <= String.length a)%nat.
Proof.
  induction tok as [| t tok IH]; intros a Htok Ha Hpre; [simpl; lia |].
  apply free_cons in Htok as [Ht Htok].
  destruct a as [| c a].
  - destruct num_head as (d & rest & E & Hd). rewrite E in Hpre. simpl in Hpre.
    apply prefix_cons in Hpre as [<- _]. congruence.
  - apply free_cons in Ha as [_ Ha].
    change (String.prefix (String t tok) (String c (a +:+ num +:+ b)) = true) in Hpre.
    apply prefix_cons in Hpre as [_ Hpre].
    simpl. specialize (IH a Htok Ha Hpre). lia.
Qed.

Lemma no_occurrence_at_numeral c s :
  D c = true -> String.prefix old (String c s) = false.
Proof.
  intros Hc. destruct old as [| t tok]; [contradiction |].
  apply free_cons in old_free as [Ht _].
  destruct (String.prefix (String t tok) (String c s)) eqn:E; [| reflexivity].
  apply prefix_cons in E as [<- _]. congruence.
Qed.

Lemma replace_numeral s :
  Str.all_chars D s = true ->
  Str.replace_from old "" 0 (s +:+ b) = s +:+ Str.replace_from old "" 0 b.
Proof.
  induction s as [| c s IH]; [reflexivity |].
  simpl. intros H. apply andb_true_iff in H as [Hc Hs].
  change (Str.replace_from old "" 0 (String c (s +:+ b))
          = String c (s +:+ Str.replace_from old "" 0 b)).
  cbn [Str.replace_from]. rewrite no_occurrence_at_numeral by exact Hc.
  now rewrite IH.
Qed.

Lemma replace_around_from :
  forall a k, free D a -> (k <= String.length a)%nat ->
    exists a', free D a'
      /\ Str.replace_from old "" k (a +:+ num +:+ b)
         = a' +:+ num +:+ Str.replace_from old "" 0 b.
Proof.
  induction a as [| c a IH]; intros k Ha Hk.
  - assert (k = 0%nat) as -> by (simpl in Hk; lia).
    exists "". split; [reflexivity |]. apply replace_numeral, num_chars.
  - apply free_cons in Ha as [Hc Ha].
    change (String c a +:+ num +:+ b) with (String c (a +:+ num +:+ b)).
    cbn [Str.replace_from]. destruct k as [| k].
    + destruct (String.prefix old (String c (a +:+ num +:+ b))) eqn:E.
      * apply (occurrence_before_numeral old (String c a)) in E;
          [| exact old_free | simpl; now rewrite Hc, Ha].
        destruct (IH (Nat.pred (String.length old)) Ha) as (a' & Ha' & Heq);
          [simpl in E; lia |].
        exists a'. split; [exact Ha' |]. exact Heq.
      * destruct (IH 0%nat Ha) as (a' & Ha' & Heq); [lia |].
        exists (String c a'). split; [simpl; now rewrite Hc, Ha' |].
        simpl. now rewrite Heq.
    + destruct (IH k Ha) as (a' & Ha' & Heq); [simpl in Hk; lia |].
      exists a'. now split.
Qed.

Lemma replace_around a :
  free D a ->
  exists a', free D a'
    /\ Str.replace old "" (a +:+ num +:+ b)
       = a' +:+ num +:+ Str.replace old "" b.
Proof. intros Ha. apply replace_around_from; [exact Ha | lia]. Qed.

Hypothesis b_free : free D b.

Lemma search_around a :
  free D a -> Str.re_search_run D (a +:+ num +:+ b) = Some num.
Proof.
  intros Ha. unfold Str.re_search_run.
  assert (Hdrop : Str.drop_while (fun c => negb (D c)) (a +:+ num +:+ b)
                  = num +:+ b).
  { induction a as [| c a IH].
    - destruct num_head as (d & rest & -> & Hd). simpl. now rewrite Hd.
    - apply free_cons in Ha as [Hc Ha]. simpl. rewrite Hc. simpl. now apply IH. }
  rewrite Hdrop.
  assert (Htake : forall s, Str.all_chars D s = true ->
                            Str.take_while D (s +:+ b) = s).
  { induction s as [| c s IH].
    - intros _. simpl. destruct b as [| c b']; [reflexivity |].
      apply free_cons in b_free as [Hc _]. simpl. now rewrite Hc.
    - simpl. intros H. apply andb_true_iff in H as [Hc Hs].
      rewrite Hc. now rewrite IH. }
  pose proof (Htake num num_chars) as Ht.
  destruct num_head as (d & rest & E & _). rewrite E in Ht |- *.
  change (String d rest +:+ b) with (String d (rest +:+ b)) in Ht |- *.
  cbv iota. now rewrite Ht.
Qed.

End Numeral.

Section Around.

Variable num : string.
Hypothesis num_chars : Str.all_chars Str.is_digit_or_dot num = true.
Hypothesis num_not_empty : num <> "".

Lemma around_lower t : around num t -> around num (Str.lower t).
Proof.
  intros (a & b & Ha & Hb & ->).
  exists (Str.lower a), (Str.lower b).
  split; [now apply free_lower |]. split; [now apply free_lower |].
  now apply lower_around.
Qed.

Lemma around_strip t : around num t -> around num (Str.strip t).
Proof.
  intros (a & b & Ha & Hb & ->).
  exists (Str.lstrip a), (Str.rstrip b).
  split; [now apply free_drop_while |]. split; [now apply free_rstrip |].
  now apply strip_around.
Qed.

Lemma around_replace old t :
  free Str.is_digit_or_dot old -> old <> "" ->
  around num t -> around num (Str.replace old "" t).
Proof.
  intros Hold Hne (a & b & Ha & Hb & ->).
  destruct (replace_around num b num_chars num_not_empty old Hold Hne a Ha)
    as (a' & Ha' & Heq).
  exists a', (Str.replace old "" b).
  split; [exact Ha' |]. split; [now apply free_replace |]. exact Heq.
Qed.

Lemma around_search t :
  around num t -> Str.re_search_run Str.is_digit_or_dot t = Some num.
Proof.
  intros (a & b & Ha & Hb & ->).
  now apply search_around.
Qed.

End Around.

Lemma of_str_numeral num value :
  Float.of_str num = Ok value ->
  Str.all_chars Str.is_digit_or_dot num = true /\ num <> "".
Proof.
  unfold Float.of_str. intros H.
  destruct (Str.all_chars Str.is_digit_or_dot num) eqn:Hall; [| discriminate].
  split; [reflexivity |]. intros ->. discriminate.
Qed.

(** a numeral between texts without digits and dots is what
    clean_numeric_value converts *)
Lemma clean_numeric_value_around a num b value :
  free Str.is_digit_or_dot a -> free Str.is_digit_or_dot b ->
  Float.of_str num = Ok value ->
  license.clean_numeric_value (SStr (a +:+ num +:+ b)) = Ok (Some value).
Proof.
  intros Ha Hb Hnum.
  destruct (of_str_numeral num value Hnum) as [Hchars Hne].
  unfold license.clean_numeric_value.
  rewrite (around_search num Hchars Hne), Hnum; [reflexivity |].
  apply around_strip; try assumption.
  repeat (apply around_replace; try assumption; try reflexivity; try discriminate).
  apply around_strip; try assumption.
  apply around_lower; try assumption.
  now exists a, b.
Qed.

Lemma of_str_without_digit s :
  free Str.is_digit s -> Float.of_str s = Raise ValueError.
Proof.
  intros H. unfold Float.of_str.
  assert (E : Float.filter_chars Str.is_digit s = "").
  { induction s as [| c s IH]; [reflexivity |].
    apply free_cons in H as [Hc Hs]. simpl. rewrite Hc. now apply IH. }
  rewrite E. simpl. now rewrite andb_false_r.
Qed.

Lemma free_search p q s group :
  free p s -> Str.re_search_run q s = Some group -> free p group.
Proof.
  unfold Str.re_search_run. intros H Hs.
  pose proof (free_drop_while p (fun c => negb (q c)) s H) as Hd.
  destruct (Str.drop_while _ s) as [| c r]; [discriminate |].
  injection Hs as <-. now apply (free_take_while p q (String c r)).
Qed.

Lemma clean_numeric_value_no_digit s :
  free Str.is_digit s -> license.clean_numeric_value (SStr s) = Ok None.
Proof.
  intros H. unfold license.clean_numeric_value.
  destruct (Str.re_search_run _ _) as [group |] eqn:Hs; [| reflexivity].
  rewrite of_str_without_digit; [reflexivity |].
  refine (free_search _ _ _ _ _ Hs).
  apply free_strip.
  unfold Str.replace. repeat apply free_replace.
  apply free_strip. now apply free_lower_digit.
Qed.

Lemma token_free t :
  In t (" " :: stripped_tokens) -> free Str.is_digit_or_dot t.
Proof.
  simpl. intros H.
  repeat (destruct H as [<- | H]; [reflexivity |]). contradiction.
Qed.

Lemma append_empty_r s : s +:+ "" = s.
Proof.
  induction s as [| c s IH]; [reflexivity |].
  change (String c (s +:+ "") = String c s). now rewrite IH.
Qed.

Lemma tokens_free l :
  Forall (fun t => In t (" " :: stripped_tokens)) l ->
  free Str.is_digit_or_dot (String.concat "" l).
Proof.
  induction 1 as [| t l Ht Hl IH]; [reflexivity |].
  assert (E : String.concat "" (t :: l) = t +:+ String.concat "" l)
    by (destruct l; [now rewrite append_empty_r | reflexivity]).
  rewrite E, any_char_app, (token_free t Ht), IH. reflexivity.
Qed.



(** ** Dates in texts *)

(** C4, as stated, fails: "2024-5-1" is in neither named format, and
    parse_date reads the first of May from it. *)
Lemma parse_date_reads_short_fields :
  named_format "2024-5-1" = false
  /\ minerpage.parse_date (SStr "2024-5-1") = Some (Date.mk 2024 5 1)
  /\ ~ (forall s, named_format s = false -> minerpage.parse_date (SStr s) = None).
Proof.
  split; [reflexivity |]. split; [reflexivity |].
  intros H. specialize (H "2024-5-1" eq_refl). discriminate H.
Qed.

Lemma in_range_bounds lo hi c :
  Str.in_range lo hi c = true -> (lo <= Str.code c <= hi)%N.
Proof.
  unfold Str.in_range. intros H. apply andb_true_iff in H as [H1 H2].
  split; [now apply N.leb_le | now apply N.leb_le].
Qed.

Lemma in_range_digit lo hi c :
  (48 <= lo)%N -> (hi <= 57)%N -> Str.in_range lo hi c = true ->
  Str.is_digit c = true.
Proof.
  intros Hlo Hhi H. apply in_range_bounds in H.
  unfold Str.is_digit, Str.in_range.
  apply andb_true_iff. split; apply N.leb_le; lia.
Qed.

Lemma digit_char_of c n :
  Str.is_digit c = true -> n mod 10 = Str.digit_value c -> Str.digit_char n = c.
Proof.
  intros Hc Hn. apply in_range_bounds in Hc.
  unfold Str.digit_char. rewrite Hn. unfold Str.digit_value, Str.code in *.
  replace (Z.to_N (48 + (Z.of_N (N_of_ascii c) - 48))) with (N_of_ascii c) by lia.
  apply ascii_N_embedding.
Qed.

Lemma group_char_digit acc c :
  Str.is_digit c = true -> Date.group_char acc c = 10 * acc + Str.digit_value c.
Proof. unfold Date.group_char. now intros ->. Qed.

Lemma digit_value_bounds c :
  Str.is_digit c = true -> 0 <= Str.digit_value c <= 9.
Proof.
  intros H. apply in_range_bounds in H. unfold Str.digit_value. lia.
Qed.

Lemma space_char c : Str.in_range 32 32 c = true -> c = " "%char.
Proof.
  intros H. apply in_range_bounds in H.
  rewrite <- (ascii_N_embedding c). unfold Str.code in H.
  replace (N_of_ascii c) with 32%N by lia. reflexivity.
Qed.

Lemma dash_char c : (Str.code c =? 45)%N = true -> c = "-"%char.
Proof.
  intros H. apply N.eqb_eq in H.
  rewrite <- (ascii_N_embedding c). unfold Str.code in H. now rewrite H.
Qed.

Lemma match_alt_one r acc s v rest :
  Date.match_alt [r] acc s = Some (v, rest) ->
  exists c, s = String c rest /\ Str.in_range r.1 r.2 c = true
            /\ v = Date.group_char acc c.
Proof.
  destruct r as [lo hi]. simpl. destruct s as [| c s]; [discriminate |].
  destruct (Str.in_range lo hi c) eqn:Hc; [| discriminate].
  intros H. injection H as <- <-. now exists c.
Qed.

Lemma match_alt_cons r a acc s v rest :
  Date.match_alt (r :: a) acc s = Some (v, rest) ->
  exists c s', s = String c s' /\ Str.in_range r.1 r.2 c = true
               /\ Date.match_alt a (Date.group_char acc c) s' = Some (v, rest).
Proof.
  destruct r as [lo hi]. simpl. destruct s as [| c s]; [discriminate |].
  destruct (Str.in_range lo hi c) eqn:Hc; [| discriminate].
  intros H. now exists c, s.
Qed.

Lemma first_alt_sound {A} alts s (continue : Z -> string -> option A) r :
  Date.first_alt alts s continue = Some r ->
  exists a v rest,
    In a alts /\ Date.match_alt a 0 s = Some (v, rest) /\ continue v rest = Some r.
Proof.
  induction alts as [| a alts IH]; [discriminate |].
  simpl. destruct (Date.match_alt a 0 s) as [[v rest] |] eqn:Ha.
  - destruct (continue v rest) as [r' |] eqn:Hc.
    + intros H. injection H as <-. exists a, v, rest. auto.
    + intros H. destruct (IH H) as (a' & v' & rest' & Hin & Hm & Hk).
      exists a', v', rest'. auto.
  - intros H. destruct (IH H) as (a' & v' & rest' & Hin & Hm & Hk).
    exists a', v', rest'. auto.
Qed.

Ltac digit_facts :=
  repeat match goal with
  | H : Str.in_range _ _ ?c = true |- _ =>
      lazymatch goal with
      | _ : Str.is_digit c = true |- _ => fail
      | _ => first
          [ assert (Str.is_digit c = true)
              by (apply (in_range_digit _ _ c) in H; [exact H | lia | lia])
          | fail 1 ]
      end
  end.

(** two digits are the two-digit spelling of their value *)
Lemma two_digits c1 c2 :
  Str.is_digit c1 = true -> Str.is_digit c2 = true ->
  Str.pad2 (Date.group_char (Date.group_char 0 c1) c2)
  = String c1 (String c2 "").
Proof.
  intros H1 H2. rewrite !group_char_digit by assumption.
  pose proof (digit_value_bounds c1 H1). pose proof (digit_value_bounds c2 H2).
  unfold Str.pad2. f_equal; [| f_equal].
  - apply digit_char_of; [exact H1 |]. Z.div_mod_to_equations. lia.
  - apply digit_char_of; [exact H2 |]. Z.div_mod_to_equations. lia.
Qed.

Lemma one_digit c :
  Str.is_digit c = true ->
  (Date.group_char 0 c <? 10) = true
  /\ String (Str.digit_char (Date.group_char 0 c)) "" = String c "".
Proof.
  intros H. rewrite group_char_digit by assumption.
  pose proof (digit_value_bounds c H). split; [apply Z.ltb_lt; lia |].
  f_equal. apply digit_char_of; [exact H |]. Z.div_mod_to_equations. lia.
Qed.

Lemma month_spelled a s v rest :
  In a Date.m_directive -> Date.match_alt a 0 s = Some (v, rest) ->
  exists sp, In sp (field_spellings false v) /\ s = sp +:+ rest.
Proof.
  simpl. intros [<- | [<- | [<- | []]]] H.
  1, 2: apply match_alt_cons in H as (c1 & s' & -> & H1 & H);
        apply match_alt_one in H as (c2 & -> & H2 & ->);
        simpl in H1, H2; digit_facts;
        exists (String c1 (String c2 "")); split; [| reflexivity];
        left; now apply two_digits.
  apply match_alt_one in H as (c & -> & H1 & ->). simpl in H1. digit_facts.
  destruct (one_digit c) as [Hlt Heq]; [assumption |].
  exists (String c ""). split; [| reflexivity].
  unfold field_spellings. rewrite Hlt. right. left. exact Heq.
Qed.

Lemma day_spelled a s v rest :
  In a Date.d_directive -> Date.match_alt a 0 s = Some (v, rest) ->
  exists sp, In sp (field_spellings true v) /\ s = sp +:+ rest.
Proof.
  simpl. intros [<- | [<- | [<- | [<- | [<- | []]]]]] H.
  1, 2, 3: apply match_alt_cons in H as (c1 & s' & -> & H1 & H);
        apply match_alt_one in H as (c2 & -> & H2 & ->);
        simpl in H1, H2; digit_facts;
        exists (String c1 (String c2 "")); split; [| reflexivity];
        left; now apply two_digits.
  - apply match_alt_one in H as (c & -> & H1 & ->). simpl in H1. digit_facts.
    destruct (one_digit c) as [Hlt Heq]; [assumption |].
    exists (String c ""). split; [| reflexivity].
    unfold field_spellings. rewrite Hlt. right. left. exact Heq.
  - apply match_alt_cons in H as (c1 & s' & -> & H1 & H).
    apply match_alt_one in H as (c2 & -> & H2 & ->).
    simpl in H1, H2. apply space_char in H1 as ->. digit_facts.
    change (Date.group_char 0 " ") with 0.
    destruct (one_digit c2) as [Hlt Heq]; [assumption |].
    exists (String " " (String c2 "")). split; [| reflexivity].
    unfold field_spellings. rewrite Hlt. right. right. left.
    injection Heq as Heq. now rewrite Heq.
Qed.

Lemma year_spelled s y rest :
  Date.match_alt Date.Y_directive 0 s = Some (y, rest) ->
  s = Str.pad4 y +:+ rest.
Proof.
  unfold Date.Y_directive. intros H.
  apply match_alt_cons in H as (c1 & s1 & -> & H1 & H).
  apply match_alt_cons in H as (c2 & s2 & -> & H2 & H).
  apply match_alt_cons in H as (c3 & s3 & -> & H3 & H).
  apply match_alt_one in H as (c4 & -> & H4 & ->).
  simpl in H1, H2, H3, H4. digit_facts.
  rewrite !group_char_digit by assumption.
  pose proof (digit_value_bounds c1 ltac:(assumption)).
  pose proof (digit_value_bounds c2 ltac:(assumption)).
  pose proof (digit_value_bounds c3 ltac:(assumption)).
  pose proof (digit_value_bounds c4 ltac:(assumption)).
  unfold Str.pad4, Str.pad2.
  change (String c1 (String c2 (String c3 (String c4 rest)))
          = String (Str.digit_char
                      ((10 * (10 * (10 * (10 * 0 + Str.digit_value c1)
                                    + Str.digit_value c2)
                              + Str.digit_value c3)
                        + Str.digit_value c4) / 1000))
              (String (Str.digit_char
                         ((10 * (10 * (10 * (10 * 0 + Str.digit_value c1)
                                       + Str.digit_value c2)
                                 + Str.digit_value c3)
                           + Str.digit_value c4) / 100))
                 (String (Str.digit_char
                            ((10 * (10 * (10 * (10 * 0 + Str.digit_value c1)
                                          + Str.digit_value c2)
                                    + Str.digit_value c3)
                              + Str.digit_value c4) / 10))
                    (String (Str.digit_char
                               (10 * (10 * (10 * (10 * 0 + Str.digit_value c1)
                                            + Str.digit_value c2)
                                      + Str.digit_value c3)
                                + Str.digit_value c4))
                       rest)))).
  repeat f_equal; symmetry; apply digit_char_of; try assumption;
    Z.div_mod_to_equations; lia.
Qed.

Lemma expect_dash_spelled s rest :
  Date.expect_dash s = Some rest -> s = String "-" rest.
Proof.
  destruct s as [| c s]; [discriminate |]. simpl.
  destruct (Str.code c =? 45)%N eqn:Hc; [| discriminate].
  intros H. injection H as <-. now rewrite (dash_char c Hc).
Qed.

Lemma append_assoc (x y z : string) : (x +:+ y) +:+ z = x +:+ y +:+ z.
Proof.
  induction x as [| c x IH]; [reflexivity |].
  change (String c ((x +:+ y) +:+ z) = String c (x +:+ y +:+ z)). now rewrite IH.
Qed.

(** what [strptime] accepts is a spelling of the date it returns *)
Lemma strptime_spelled s d :
  Date.strptime_Y_m_d s = Ok d ->
  Date.valid (Date.year d) (Date.month d) (Date.day d) = true
  /\ In s (spellings d).
Proof.
  unfold Date.strptime_Y_m_d, Date.match_Y_m_d. intros H.
  destruct (Date.match_alt Date.Y_directive 0 s) as [[y s1] |] eqn:HY;
    [| discriminate].
  apply year_spelled in HY as ->.
  destruct (Date.expect_dash s1) as [s2 |] eqn:H1; [| discriminate].
  apply expect_dash_spelled in H1 as ->.
  destruct (Date.first_alt Date.m_directive s2 _) as [[[[y' m] dd] rest] |] eqn:Hm;
    [| discriminate].
  apply first_alt_sound in Hm as (am & vm & s3 & Hinm & Hmm & Hk).
  destruct (month_spelled am s2 vm s3 Hinm Hmm) as (spm & Hspm & ->).
  destruct (Date.expect_dash s3) as [s4 |] eqn:H2; [| discriminate].
  apply expect_dash_spelled in H2 as ->.
  apply first_alt_sound in Hk as (ad & vd & s5 & Hind & Hmd & Hk).
  injection Hk as <- <- <- <-.
  destruct (day_spelled ad s4 vd s5 Hind Hmd) as (spd & Hspd & ->).
  destruct s5 as [| c s5]; [| discriminate].
  unfold Date.make in H.
  destruct (Date.valid y vm vd) eqn:Hvalid; [| discriminate].
  injection H as <-. unfold spellings.
  cbn [Date.year Date.month Date.day]. split; [exact Hvalid |].
  apply in_flat_map. exists spm. split; [exact Hspm |].
  apply in_map_iff. exists spd. split; [| exact Hspd].
  rewrite append_empty_r.
  change (String "-" (spm +:+ String "-" spd)) with ("-" +:+ spm +:+ "-" +:+ spd).
  reflexivity.
Qed.

Lemma parse_date_strptime s d :
  minerpage.parse_date (SStr s) = Some d ->
  Date.strptime_Y_m_d (date_part s) = Ok d.
Proof.
  unfold minerpage.parse_date, minerpage.parse_date_try, date_part.
  destruct (negb (truthy (SStr s))); [discriminate |].
  destruct (Str.contains "T" s).
  - destruct (Date.strptime_Y_m_d (hd "" (Str.split "T" s))) as [d' |];
      [| discriminate].
    simpl. intros H. now injection H as <-.
  - destruct (Date.strptime_Y_m_d s) as [d' |]; [| discriminate].
    simpl. intros H. now injection H as <-.
Qed.

(** C4, amended: the ISO text with a T and the bare date give the same
    date; None gives None; "not-a-date" gives None; and whenever a text
    gives a date, what stands before its first T is a spelling of that
    calendar date: the year in four digits, then month and day, each in
    two digits or in one (the day also as a blank and a digit), with "-"
    between them. Every other text gives None; nothing is raised. *)
Theorem parse_date_formats :
  minerpage.parse_date (SStr "2024-05-01T00:00:00Z") = Some (Date.mk 2024 5 1)
  /\ minerpage.parse_date (SStr "2024-05-01") = Some (Date.mk 2024 5 1)
  /\ minerpage.parse_date SNull = None
  /\ minerpage.parse_date (SStr "not-a-date") = None
  /\ (forall s d,
        minerpage.parse_date (SStr s) = Some d ->
        Date.valid (Date.year d) (Date.month d) (Date.day d) = true
        /\ In (date_part s) (spellings d))
  /\ (forall s,
        (forall d, Date.valid (Date.year d) (Date.month d) (Date.day d) = true ->
                   ~ In (date_part s) (spellings d)) ->
        minerpage.parse_date (SStr s) = None).
Proof.
  repeat (split; [reflexivity |]).
  assert (Hsound : forall s d,
            minerpage.parse_date (SStr s) = Some d ->
            Date.valid (Date.year d) (Date.month d) (Date.day d) = true
            /\ In (date_part s) (spellings d)).
  { intros s d H. now apply strptime_spelled, parse_date_strptime. }
  split; [exact Hsound |].
  intros s Hno. destruct (minerpage.parse_date (SStr s)) as [d |] eqn:E;
    [| reflexivity].
  destruct (Hsound s d E) as [Hv Hin]. now destruct (Hno d Hv).
Qed.

Lemma parse_date_formats_witness :
  In "2024-5-1" (spellings (Date.mk 2024 5 1))
  /\ In "2024-05-01" (spellings (Date.mk 2024 5 1)).
Proof.
  destruct parse_date_formats as (HT & Hbare & _ & _ & Hsound & _).
  split.
  - apply (Hsound "2024-5-1" (Date.mk 2024 5 1)). reflexivity.
  - apply (Hsound "2024-05-01T00:00:00Z" (Date.mk 2024 5 1)). exact HT.
Defined.


(** * Further properties *)

(** ** Who the caller is *)

Lemma user_id_from_cookie req c :
  cookies req !! "userId" = Some c -> c <> "" ->
  minerpage.get_user_id req = Some c
  /\ unlicensedminer.get_user_id req = Some c.
Proof.
  intros Hc Hne. apply String.eqb_neq in Hne.
  unfold minerpage.get_user_id, unlicensedminer.get_user_id, py_or, falsy.
  rewrite Hc, Hne. cbn. now rewrite Hne.
Qed.

Lemma user_id_from_header req :
  cookies req !! "userId" = None \/ cookies req !! "userId" = Some "" ->
  unlicensedminer.get_user_id req = headers req !! "X-User-ID"
  /\ minerpage.get_user_id req
     = (if falsy (headers req !! "X-User-ID") then None
        else headers req !! "X-User-ID").
Proof.
  unfold minerpage.get_user_id, unlicensedminer.get_user_id, py_or.
  intros [-> | ->]; split; reflexivity.
Qed.

Lemma not_falsy_some o u :
  (if falsy o then None else o) = Some u <-> u <> "" /\ o = Some u.
Proof.
  unfold falsy. destruct o as [s |].
  - destruct (String.eqb s "") eqn:E.
    + apply String.eqb_eq in E. subst. split; [discriminate |].
      intros [Hu H]. injection H as <-. contradiction.
    + apply String.eqb_neq in E. split.
      * intros H. injection H as <-. now split.
      * now intros [_ H].
  - split; [discriminate | now intros [_ H]].
Qed.

(** X1: the identifier is the userId cookie when that is not empty, else
    the X-User-ID header when that is not empty, else there is none; and
    the helper of unlicensedminer.py "matches minerpage.py": the two agree
    on whether a request is identified and on the identifier. *)
Theorem user_id_cookie_before_header (req : request) (u : string) :
  (minerpage.get_user_id req = Some u <->
   u <> ""
   /\ (cookies req !! "userId" = Some u
       \/ ((cookies req !! "userId" = None \/ cookies req !! "userId" = Some "")
           /\ headers req !! "X-User-ID" = Some u)))
  /\ (minerpage.get_user_id req = None <->
      falsy (unlicensedminer.get_user_id req) = true)
  /\ (minerpage.get_user_id req = Some u ->
      unlicensedminer.get_user_id req = Some u).
Proof.
  destruct (cookies req !! "userId") as [c |] eqn:Hc.
  - destruct (String.eqb_spec c "") as [-> | Hne].
    + destruct (user_id_from_header req (or_intror Hc)) as [Hu Hm].
      rewrite Hm, Hu. split; [| split].
      * rewrite not_falsy_some. split.
        -- intros [H1 H2]. split; [exact H1 |]. right. split; [now right | exact H2].
        -- intros [H1 [H2 | [_ H2]]]; [injection H2 as <-; contradiction |].
           now split.
      * destruct (falsy (headers req !! "X-User-ID")) eqn:E; [easy |].
        split; [| discriminate]. intros H. rewrite H in E. discriminate.
      * intros H. now apply not_falsy_some in H.
    + destruct (user_id_from_cookie req c Hc Hne) as [Hm Hu].
      rewrite Hm, Hu. split; [| split].
      * split.
        -- intros H. injection H as <-. split; [exact Hne | now left].
        -- intros [_ [H | [[H | H] _]]]; try discriminate H; [exact H |].
           injection H as ->. contradiction.
      * unfold falsy. apply String.eqb_neq in Hne. rewrite Hne.
        split; discriminate.
      * easy.
  - destruct (user_id_from_header req (or_introl Hc)) as [Hu Hm].
    rewrite Hm, Hu. split; [| split].
    + rewrite not_falsy_some. split.
      * intros [H1 H2]. split; [exact H1 |]. right. split; [now left | exact H2].
      * intros [H1 [H2 | [_ H2]]]; [discriminate H2 | now split].
    + destruct (falsy (headers req !! "X-User-ID")) eqn:E; [easy |].
      split; [| discriminate]. intros H. rewrite H in E. discriminate.
    + intros H. now apply not_falsy_some in H.
Qed.

Lemma user_id_cookie_before_header_witness :
  minerpage.get_user_id
    (mkreq {[ "userId" := "" ]} {[ "X-User-ID" := "u7" ]} (Ok NotObject) ∅ ∅)
  = Some "u7".
Proof.
  destruct (user_id_cookie_before_header
              (mkreq {[ "userId" := "" ]} {[ "X-User-ID" := "u7" ]}
                     (Ok NotObject) ∅ ∅) "u7") as [[_ H] _].
  apply H. split; [discriminate |].
  right. split; [right; reflexivity | reflexivity].
Defined.

(** ** What the reading routes do to the service *)

Lemma next_outage_data w :
  tables (next_outage w).2 = tables w /\ buckets (next_outage w).2 = buckets w.
Proof. unfold next_outage. now destruct (outages w). Qed.

Lemma run_read_only {A} (p : remote A) :
  read_only p ->
  forall w, tables (run p w).2 = tables w /\ buckets (run p w).2 = buckets w.
Proof.
  induction 1 as [a | q k Hk IH]; intros w; [now split |].
  cbn [run]. destruct (next_outage_data w) as [Ht Hb].
  destruct (next_outage w) as [down w']. cbn [snd] in Ht, Hb.
  rewrite <- Ht, <- Hb. destruct down; apply IH.
Qed.

Ltac walk ctor_done ctor_select :=
  cbv zeta;
  repeat match goal with
  | |- _ (Done _) => ctor_done
  | |- _ (Select _ _) => ctor_select
  | |- _ (attempt ?m _ _) => destruct m; cbn [attempt]
  | |- _ (if ?x then _ else _) => destruct x eqn:?
  | |- _ (match ?x with _ => _ end) => destruct x eqn:?
  end.

Lemma get_routes_read_only rt path h req :
  In (path, h) (get_routes rt) -> read_only (h req).
Proof.
  unfold get_routes, miner_get_routes. simpl. intros Hin.
  repeat (destruct Hin as [Heq | Hin]; [injection Heq as _ <- |]);
    try contradiction.
  all: unfold minerpage.get_license, minerpage.get_royalty,
         minerpage.get_announcements, unlicensedminer.get_user_status,
         unlicensedminer.get_application_details, unlicensedminer.get_documents,
         unlicensedminer.get_announcements, license_routes.get_licenses,
         contact.get_contacts.
  all: walk ltac:(apply read_only_done)
            ltac:(apply read_only_select; intros ?).
Qed.

(** X2: the handlers of the GET routes only query: whatever the request
    and whatever the state and the outages of the service, they leave every
    table and every bucket as it was. *)
Theorem get_routes_never_write (rt : runtime) (path : string) (h : handler)
    (req : request) (w : world) :
  In (path, h) (get_routes rt) ->
  tables (run (h req) w).2 = tables w /\ buckets (run (h req) w).2 = buckets w.
Proof.
  intros Hin. apply run_read_only. now apply (get_routes_read_only rt path).
Qed.

Lemma get_routes_never_write_witness :
  tables (run (minerpage.get_license (Sample.miner ∅)) Sample.db).2
    = tables Sample.db
  /\ buckets (run (minerpage.get_license (Sample.miner ∅)) Sample.db).2
     = buckets Sample.db.
Proof.
  apply (get_routes_never_write Sample.rt "/miner/license").
  simpl. left. reflexivity.
Defined.

Lemma identified req u :
  minerpage.get_user_id req = Some u ->
  py_or (cookies req !! "userId") (headers req !! "X-User-ID") = Some u
  /\ falsy (py_or (cookies req !! "userId") (headers req !! "X-User-ID")) = false.
Proof.
  unfold minerpage.get_user_id.
  destruct (falsy _) eqn:E; [discriminate |]. intros ->. now split.
Qed.

(** X3: a miner only reaches their own rows: every query a reading route
    of the miner blueprints (and /license/get) issues for an identified
    request selects on [id] or [miner_id] being the identifier of the
    caller, whatever the replies to the earlier queries. *)
Theorem queries_scoped_to_caller (rt : runtime) (path : string) (h : handler)
    (req : request) (u : string) :
  In (path, h) (miner_get_routes rt) ->
  minerpage.get_user_id req = Some u ->
  scoped u (h req).
Proof.
  intros Hin Hid. destruct (identified req u Hid) as [Hor Hf].
  unfold miner_get_routes in Hin. simpl in Hin.
  repeat (destruct Hin as [Heq | Hin]; [injection Heq as _ <- |]);
    try contradiction.
  all: unfold minerpage.get_license, minerpage.get_royalty,
         minerpage.get_announcements, unlicensedminer.get_user_status,
         unlicensedminer.get_application_details, unlicensedminer.get_documents,
         unlicensedminer.get_announcements, license_routes.get_licenses,
         unlicensedminer.get_user_id.
  all: rewrite ?Hid, ?Hf, ?Hor; cbn [default].
  all: walk ltac:(apply scoped_done)
            ltac:(apply scoped_select;
                  [first [left; reflexivity | right; reflexivity] | intros ?]).
Qed.

Lemma queries_scoped_to_caller_witness :
  scoped "u1" (unlicensedminer.get_documents (Sample.miner ∅)).
Proof.
  apply (queries_scoped_to_caller Sample.rt "/unlicensedminer/documents").
  - simpl. tauto.
  - reflexivity.
Defined.

(** ** When the service is down *)

Lemma next_outage_down w rest :
  outages w = true :: rest -> next_outage w = (true, after_outage w).
Proof. unfold next_outage, after_outage. now intros ->. Qed.

Ltac first_call_down Hdown :=
  cbv zeta;
  repeat match goal with
  | |- makes_no_call (Done _) = true \/ _ => left; reflexivity
  | |- makes_no_call (attempt ?m _ _) = true \/ _ =>
      destruct m eqn:?; cbn [attempt]
  | |- makes_no_call (if ?x then _ else _) = true \/ _ => destruct x eqn:?
  | |- makes_no_call (match ?x with _ => _ end) = true \/ _ => destruct x eqn:?
  | |- makes_no_call _ = true \/ _ =>
      right; cbn [run]; rewrite (next_outage_down _ _ Hdown); cbn [attempt run];
      eexists; split; [reflexivity | split; reflexivity]
  end.

(** X4: no failure of the service escapes a handler: when the first call a
    handler makes on the client raises, the answer is 500 with an error body
    and neither table nor bucket has changed; the other requests are the
    ones answered without any call. *)
Theorem service_down_is_500 (rt : runtime) (path : string) (h : handler)
    (req : request) (w : world) (rest : list bool) :
  In (path, h) (remote_routes rt) ->
  outages w = true :: rest ->
  makes_no_call (h req) = true
  \/ exists resp,
       run (h req) w = (resp, after_outage w)
       /\ status resp = 500 /\ is_error_body resp = true.
Proof.
  intros Hin Hdown.
  unfold remote_routes, get_routes, miner_get_routes in Hin. simpl in Hin.
  repeat (destruct Hin as [Heq | Hin]; [injection Heq as _ <- |]);
    try contradiction.
  all: unfold minerpage.get_license, minerpage.get_royalty,
         minerpage.get_announcements, unlicensedminer.get_user_status,
         unlicensedminer.get_application_details, unlicensedminer.get_documents,
         unlicensedminer.get_announcements, license_routes.get_licenses,
         contact.get_contacts, unlicensedminer.upload_document,
         contact.submit_contact.
  all: first_call_down Hdown.
Qed.

Lemma service_down_is_500_witness :
  makes_no_call (unlicensedminer.get_documents (Sample.miner ∅)) = true
  \/ exists resp,
       run (unlicensedminer.get_documents (Sample.miner ∅))
           (mkworld ∅ ∅ [true] "")
       = (resp, after_outage (mkworld ∅ ∅ [true] ""))
       /\ status resp = 500 /\ is_error_body resp = true.
Proof.
  apply (service_down_is_500 Sample.rt "/unlicensedminer/documents" _ _ _ []).
  - simpl. tauto.
  - reflexivity.
Defined.

(** ** The license routes without an identifier *)

(** X5: /license/submit and /license/get answer a request that has neither
    the userId cookie nor the X-User-ID header (or has them empty) with 401
    and an error body, before the upload folder is made and before any call
    on the client. *)
Theorem license_routes_anonymous_is_401 (rt : runtime)
    (app : license_routes.host) (req : request) :
  falsy (py_or (cookies req !! "userId") (headers req !! "X-User-ID")) = true ->
  let resp := (401, error "User ID not provided") in
  license_routes.submit_license rt app req = license_routes.Answer resp
  /\ license_routes.get_licenses req = Done resp
  /\ is_error_body resp = true
  /\ forall w,
       license_routes.run_flow (license_routes.submit_license rt app req) w
       = (resp, w)
       /\ run (license_routes.get_licenses req) w = (resp, w).
Proof.
  intros H resp.
  unfold license_routes.submit_license, license_routes.get_licenses.
  rewrite H. repeat split; reflexivity.
Qed.

Lemma license_routes_anonymous_is_401_witness :
  license_routes.get_licenses Sample.anonymous
  = Done (401, error "User ID not provided").
Proof.
  apply (license_routes_anonymous_is_401 Sample.rt
           (license_routes.mkhost "" (fun _ => Ok tt) (fun _ => false) (fun f => f))
           Sample.anonymous).
  reflexivity.
Defined.

(** ** Files on their way to the bucket *)

Lemma next_outage_keeps w :
  tables (next_outage w).2 = tables w
  /\ buckets (next_outage w).2 = buckets w
  /\ base_url (next_outage w).2 = base_url w.
Proof. unfold next_outage. now destruct (outages w). Qed.

Lemma run_save_file rt (f : option file) folder w :
  tables (run (license.save_file rt f folder) w).2 = tables w
  /\ match (run (license.save_file rt f folder) w).1 with
     | Some url =>
         exists file,
           f = Some file
           /\ license.allowed_file (filename file) = true
           /\ url = public_url w "documents" (relay_path rt file)
           /\ stored_object (run (license.save_file rt f folder) w).2
                "documents" (relay_path rt file) = Some (content file)
     | None => buckets (run (license.save_file rt f folder) w).2 = buckets w
     end.
Proof.
  unfold license.save_file.
  destruct f as [file |]; [| now split].
  destruct (license.file_present (Some file) && license.allowed_file (filename file))
    eqn:Hok; [| now split].
  apply andb_true_iff in Hok as [_ Hallowed].
  fold (relay_path rt file). cbn [run].
  destruct (next_outage_keeps w) as (Ht1 & Hb1 & Hu1).
  destruct (next_outage w) as [down1 w1]. cbn [snd] in Ht1, Hb1, Hu1.
  destruct down1; cbn [attempt run]; [now split |].
  destruct (next_outage_keeps w1) as (Ht2 & Hb2 & Hu2).
  destruct (next_outage w1) as [down2 w2]. cbn [snd] in Ht2, Hb2, Hu2.
  destruct down2; cbn [attempt run fst snd]; [split; congruence |].
  unfold do_upload.
  destruct (buckets w2 !! "documents") as [objects |] eqn:Hbucket;
    cbn [attempt run fst snd]; [| split; congruence].
  destruct (objects !! relay_path rt file) eqn:Hfree;
    cbn [attempt run fst snd negb]; [split; congruence |].
  split; [cbn; congruence |].
  exists file. split; [reflexivity |]. split; [exact Hallowed |]. split.
  - unfold public_url. cbn. now rewrite Hu2, Hu1.
  - unfold stored_object, set_buckets. cbn [buckets].
    rewrite lookup_insert_eq. cbn. apply lookup_insert_eq.
Qed.


(** ** Submitting a license application *)


Import license_routes.

Lemma validate_rejects rt user_id (form_data : row) :
  form_data !! "applicant_name" = None ->
  exists msg,
    validate_and_store rt user_id form_data = Answer (400, error msg).
Proof.
  intros H. unfold validate_and_store, required_fields.
  assert (Hm : is_missing form_data "applicant_name" = true)
    by (unfold is_missing; now rewrite H).
  cbn [List.filter]. rewrite Hm.
  destruct (is_missing form_data "exploration_license_no");
    destruct (is_missing form_data "national_id"); eexists; reflexivity.
Qed.

Lemma initial_form_data (a b : scalar) :
  (list_to_map [("miner_id", a); ("exploration_license_no", b)] : row)
    !! "applicant_name" = None.
Proof. reflexivity. Qed.

Lemma relay_files_rejects rt app req folder user_id fields :
  ~ In "applicant_name" fields ->
  forall (form_data : row) w,
    form_data !! "applicant_name" = None ->
    status (run_flow (relay_files rt app req folder fields form_data
                        (validate_and_store rt user_id)) w).1 = 400
    /\ tables (run_flow (relay_files rt app req folder fields form_data
                           (validate_and_store rt user_id)) w).2 = tables w.
Proof.
  induction fields as [| field rest IH]; intros Hnot form_data w Hfd.
  - cbn [relay_files].
    destruct (validate_rejects rt user_id form_data Hfd) as [msg ->].
    now split.
  - assert (Hne : field <> "applicant_name") by (intros ->; apply Hnot; now left).
    assert (Hrest : ~ In "applicant_name" rest)
      by (intros Hin; apply Hnot; now right).
    cbn [relay_files]. cbv zeta.
    destruct (license.file_present (files req !! field)).
    + cbn [run_flow].
      pose proof (run_save_file (with_uuid rt (field_uuid app field))
                    (files req !! field) folder w) as [Ht _].
      destruct (run _ w) as [file_path w1]. cbn [fst snd] in Ht.
      rewrite <- Ht. apply IH; [exact Hrest |].
      now rewrite lookup_insert_ne.
    + apply IH; [exact Hrest |]. now rewrite lookup_insert_ne.
Qed.

(** X7: as the route is written, an application is never stored:
    applicant_name and national_id are required and no branch collects
    them. Whatever the request and the state of the service,
    /license/submit answers 401, 400 or 500, never 201, and leaves every
    table as it was; an identified request whose upload folder can be made
    and whose body, when it is JSON, is an object gets the 400. *)
Theorem submit_license_never_stores (rt : runtime) (app : host)
    (req : request) (w : world) :
  let r := run_flow (submit_license rt app req) w in
  (status r.1 = 401 \/ status r.1 = 400 \/ status r.1 = 500)
  /\ tables r.2 = tables w
  /\ (falsy (py_or (cookies req !! "userId") (headers req !! "X-User-ID")) = false ->
      (forall folder, raises (makedirs app folder) = false) ->
      (is_json app req = true -> exists fields, body req = Ok (Object fields)) ->
      status r.1 = 400).
Proof.
  cbv zeta. unfold submit_license.
  destruct (falsy _) eqn:Hid.
  { cbn. split; [now left |]. split; [reflexivity | discriminate]. }
  destruct (makedirs app _) as [[] | e] eqn:Hdir.
  2: { cbn. split; [now right; right |]. split; [reflexivity |].
       intros _ Hmk _. specialize (Hmk (path_join (root_path app) "uploads")).
       rewrite Hdir in Hmk. discriminate. }
  destruct (is_json app req) eqn:Hjson.
  - destruct (body req) as [[fields |] | e] eqn:Hbody; cbn [bind json_get].
    + destruct (validate_rejects rt
                  (default "" (py_or (cookies req !! "userId")
                                     (headers req !! "X-User-ID")))
                  (list_to_map
                     [("miner_id",
                       SStr (default "" (py_or (cookies req !! "userId")
                                               (headers req !! "X-User-ID"))));
                      ("exploration_license_no",
                       dict_get fields "exploration_license_no")])
                  (initial_form_data _ _)) as [msg ->].
      cbn. split; [now right; left |]. now split.
    + cbn. split; [now right; right |]. split; [reflexivity |].
      intros _ _ H. destruct (H eq_refl) as [fields Hf]. discriminate.
    + cbn. split; [now right; right |]. split; [reflexivity |].
      intros _ _ H. destruct (H eq_refl) as [fields Hf]. discriminate.
  - match goal with
    | |- context [relay_files rt app req ?folder file_fields ?fd ?k] =>
        destruct (relay_files_rejects rt app req folder
                    (default "" (py_or (cookies req !! "userId")
                                       (headers req !! "X-User-ID")))
                    file_fields
                    ltac:(unfold file_fields; simpl; intros H;
                          repeat (destruct H as [H | H]; [discriminate H |]);
                          exact H)
                    fd w (initial_form_data _ _)) as [Hs Ht]
    end.
    rewrite Hs, Ht. split; [now right; left |]. now split.
Qed.

Lemma submit_license_never_stores_witness :
  status (run_flow (submit_license Sample.rt
                      (mkhost "/srv/app" (fun _ => Ok tt) (fun _ => false) (fun f => f))
                      (mkreq {[ "userId" := "u1" ]} ∅ (Ok NotObject)
                             {[ "exploration_license_no" := "EL-7" ]} ∅))
            Sample.db).1 = 400.
Proof.
  apply (submit_license_never_stores Sample.rt
           (mkhost "/srv/app" (fun _ => Ok tt) (fun _ => false) (fun f => f))).
  - reflexivity.
  - reflexivity.
  - discriminate.
Defined.

Lemma next_outage_up w : outages w = [] -> next_outage w = (false, w).
Proof. unfold next_outage. now intros ->. Qed.

Lemma save_file_stores rt f folder w objects :
  filename f <> "" ->
  license.allowed_file (filename f) = true ->
  outages w = [] ->
  buckets w !! "documents" = Some objects ->
  objects !! relay_path rt f = None ->
  run (license.save_file rt (Some f) folder) w
  = (Some (public_url w "documents" (relay_path rt f)),
     set_buckets w (<["documents" := <[relay_path rt f := content f]> objects]>
                      (buckets w))).
Proof.
  intros Hname Hallowed Hup Hbucket Hfree.
  apply String.eqb_neq in Hname.
  unfold license.save_file, license.file_present.
  rewrite Hname, Hallowed. cbn [negb andb]. fold (relay_path rt f).
  cbn [run]. rewrite (next_outage_up w Hup). cbn [attempt run].
  rewrite (next_outage_up w Hup). unfold do_upload.
  rewrite Hbucket, Hfree. cbn [attempt run negb]. reflexivity.
Qed.

Lemma upload_keeps_objects w bucket path data b p c :
  stored_object w b p = Some c ->
  stored_object (do_upload bucket path data w).2 b p = Some c.
Proof.
  unfold do_upload, stored_object. intros H.
  destruct (buckets w !! bucket) as [objects |] eqn:Hb; [| exact H].
  destruct (objects !! path) eqn:Hp; [exact H |].
  cbn [snd set_buckets buckets].
  destruct (decide (bucket = b)) as [-> | Hne].
  - rewrite lookup_insert_eq. rewrite Hb in H. cbn in H |- *.
    destruct (decide (path = p)) as [-> | Hne]; [congruence |].
    now rewrite lookup_insert_ne.
  - now rewrite lookup_insert_ne.
Qed.

Lemma next_outage_objects w b p :
  stored_object (next_outage w).2 b p = stored_object w b p.
Proof. unfold next_outage, stored_object. now destruct (outages w). Qed.

Lemma save_file_keeps_objects rt f folder w b p c :
  stored_object w b p = Some c ->
  stored_object (run (license.save_file rt f folder) w).2 b p = Some c.
Proof.
  intros H. unfold license.save_file.
  destruct f as [file |]; [| exact H].
  destruct (_ && _); [| exact H].
  cbn [run].
  pose proof (next_outage_objects w b p) as H1.
  destruct (next_outage w) as [down1 w1]. cbn [snd] in H1.
  rewrite <- H1 in H.
  destruct down1; cbn [attempt run]; [exact H |].
  pose proof (next_outage_objects w1 b p) as H2.
  destruct (next_outage w1) as [down2 w2]. cbn [snd] in H2.
  rewrite <- H2 in H.
  destruct down2; cbn [attempt run]; [exact H |].
  pose proof (upload_keeps_objects w2 "documents"
                (uuid4 rt +:+ "." +:+
                 List.last (Str.split "." (secure_filename rt (filename file))) "")
                (content file) b p c H) as H3.
  destruct (do_upload _ _ _ w2) as [[[] | e] w3]; cbn [attempt run snd] in *;
    exact H3.
Qed.

Lemma relay_files_keeps_objects rt app req folder user_id fields b p c :
  ~ In "applicant_name" fields ->
  forall (form_data : row) w,
    form_data !! "applicant_name" = None ->
    stored_object w b p = Some c ->
    stored_object (run_flow (relay_files rt app req folder fields form_data
                               (validate_and_store rt user_id)) w).2 b p
    = Some c.
Proof.
  induction fields as [| field rest IH]; intros Hnot form_data w Hfd Hst.
  - cbn [relay_files].
    destruct (validate_rejects rt user_id form_data Hfd) as [msg ->].
    exact Hst.
  - assert (Hne : field <> "applicant_name") by (intros ->; apply Hnot; now left).
    assert (Hrest : ~ In "applicant_name" rest)
      by (intros Hin; apply Hnot; now right).
    cbn [relay_files]. cbv zeta.
    destruct (license.file_present (files req !! field)).
    + cbn [run_flow].
      pose proof (save_file_keeps_objects (with_uuid rt (field_uuid app field))
                    (files req !! field) folder w b p c Hst) as Hk.
      destruct (run _ w) as [file_path w1]. cbn [snd] in Hk.
      apply IH; [exact Hrest | now rewrite lookup_insert_ne | exact Hk].
    + apply IH; [exact Hrest | now rewrite lookup_insert_ne | exact Hst].
Qed.

Lemma relay_files_present rt app req folder field rest (form_data : row) k f :
  files req !! field = Some f -> filename f <> "" ->
  relay_files rt app req folder (field :: rest) form_data k
  = Call (license.save_file (with_uuid rt (field_uuid app field)) (Some f) folder)
         (fun file_path =>
            relay_files rt app req folder rest
              (<[field := cell file_path]> form_data) k).
Proof.
  intros Hf Hname. cbn [relay_files]. cbv zeta. rewrite Hf.
  unfold license.file_present. apply String.eqb_neq in Hname. now rewrite Hname.
Qed.



(** ** Uploading a document *)

(** X9: upload_document does not undo the upload when the insert of the
    document row fails: with a storage that accepts the file and a database
    that is down for the insert, the answer is 500, no table has changed,
    and the object stays in the bucket. *)
Theorem upload_document_keeps_orphan (rt : runtime) (req : request) (w : world)
    (f : file) (objects : gmap string string) (rest : list bool) :
  let path := uuid4 rt +:+ "." +:+ List.last (Str.split "." (filename f)) "" in
  falsy (unlicensedminer.get_user_id req) = false ->
  files req !! "file" = Some f ->
  filename f <> "" ->
  outages w = false :: true :: rest ->
  buckets w !! "documents" = Some objects ->
  objects !! path = None ->
  status (run (unlicensedminer.upload_document rt req) w).1 = 500
  /\ tables (run (unlicensedminer.upload_document rt req) w).2 = tables w
  /\ stored_object (run (unlicensedminer.upload_document rt req) w).2
       "documents" path = Some (content f).
Proof.
  intros path Hid Hfile Hname Hout Hbucket Hfree.
  apply String.eqb_neq in Hname.
  assert (Hrun : run (unlicensedminer.upload_document rt req) w
                 = (unlicensedminer.upload_error rt APIError,
                    mkworld (tables w)
                      (<["documents" := <[path := content f]> objects]> (buckets w))
                      rest (base_url w))).
  { unfold unlicensedminer.upload_document. rewrite Hid, Hfile, Hname.
    fold path. cbn [run]. unfold next_outage. rewrite Hout.
    unfold do_upload. cbn [buckets]. rewrite Hbucket, Hfree.
    cbn [attempt run]. unfold next_outage. cbn [outages set_buckets].
    cbn [attempt run]. reflexivity. }
  rewrite Hrun. cbn [fst snd tables]. split; [reflexivity |]. split; [reflexivity |].
  unfold stored_object. cbn [buckets].
  rewrite lookup_insert_eq. cbn. apply lookup_insert_eq.
Qed.

Lemma upload_document_keeps_orphan_witness :
  status (run (unlicensedminer.upload_document Sample.rt
                 (Sample.miner {[ "file" := Sample.exe ]}))
              (mkworld ∅ {[ "documents" := ∅ ]} [false; true] "")).1 = 500
  /\ stored_object
       (run (unlicensedminer.upload_document Sample.rt
               (Sample.miner {[ "file" := Sample.exe ]}))
            (mkworld ∅ {[ "documents" := ∅ ]} [false; true] "")).2
       "documents" "7f0c.exe" = Some "MZ".
Proof.
  destruct (upload_document_keeps_orphan Sample.rt
              (Sample.miner {[ "file" := Sample.exe ]})
              (mkworld ∅ {[ "documents" := ∅ ]} [false; true] "")
              Sample.exe ∅ [])
    as (Hs & _ & Ho); try reflexivity; [discriminate |].
  split; [exact Hs | exact Ho].
Defined.

(** X10: an identified request to /unlicensedminer/upload-document that has
    no part named file, or whose file has an empty name, is answered 400
    with an error body, before anything is uploaded or inserted. *)
Theorem upload_document_without_file (rt : runtime) (req : request) :
  falsy (unlicensedminer.get_user_id req) = false ->
  files req !! "file" = None
  \/ (exists f, files req !! "file" = Some f /\ filename f = "") ->
  exists resp,
    unlicensedminer.upload_document rt req = Done resp
    /\ status resp = 400 /\ is_error_body resp = true
    /\ forall w, run (unlicensedminer.upload_document rt req) w = (resp, w).
Proof.
  intros Hid Hfile. unfold unlicensedminer.upload_document. rewrite Hid.
  destruct Hfile as [-> | (f & -> & ->)]; cbn;
    eexists; (split; [reflexivity | repeat split; reflexivity]).
Qed.

Lemma upload_document_without_file_witness :
  exists resp,
    unlicensedminer.upload_document Sample.rt (Sample.miner ∅) = Done resp
    /\ status resp = 400 /\ is_error_body resp = true
    /\ forall w,
         run (unlicensedminer.upload_document Sample.rt (Sample.miner ∅)) w
         = (resp, w).
Proof.
  apply (upload_document_without_file Sample.rt (Sample.miner ∅)).
  - reflexivity.
  - left. reflexivity.
Defined.

(** ** A contact message, from submission to listing *)

Lemma truthy_item (d : gmap string scalar) key :
  truthy_scalar (dict_get d key) = true -> dict_item d key = Ok (dict_get d key).
Proof.
  unfold dict_get, dict_item. destruct (d !! key); [reflexivity | discriminate].
Qed.

Lemma submit_contact_valid rt req fields :
  body req = Ok (Object fields) ->
  truthy_scalar (dict_get fields "name") = true ->
  truthy_scalar (dict_get fields "email") = true ->
  truthy_scalar (dict_get fields "message") = true ->
  contact.submit_contact rt req
  = Insert "contact_data"
      (contact_row (dict_get fields "name") (dict_get fields "email")
                   (dict_get fields "message"))
      (fun reply =>
         try data <- reply except (contact.failure rt);
         match data with
         | _ :: _ =>
             Done (201, dict [("message",
                               JStr "Contact message submitted successfully!");
                              ("data", json_of_rows data)])
         | [] =>
             Done (500, dict [("error", JStr "Failed to submit contact message");
                              ("details", JStr "No data returned from Supabase")])
         end).
Proof.
  intros Hb Hn He Hm. unfold contact.submit_contact. rewrite Hb.
  cbn [attempt contact.data_get contact.data_item forallb].
  rewrite Hn, He, Hm. cbn [andb negb].
  rewrite !truthy_item by assumption. reflexivity.
Qed.

(** X11: a complete contact message is stored and then listed: the answer
    is 201, the table has one more row, made of name, email and message
    only (other entries of the payload are not stored), and /contact/get
    then answers 200 with the earlier rows followed by the new one. *)
Theorem contact_submitted_is_listed (rt : runtime) (req : request)
    (fields : gmap string scalar) (w : world) (rows : list row) :
  body req = Ok (Object fields) ->
  truthy_scalar (dict_get fields "name") = true ->
  truthy_scalar (dict_get fields "email") = true ->
  truthy_scalar (dict_get fields "message") = true ->
  outages w = [] ->
  tables w !! "contact_data" = Some rows ->
  let new_row := contact_row (dict_get fields "name") (dict_get fields "email")
                             (dict_get fields "message") in
  let after := (run (contact.submit_contact rt req) w).2 in
  status (run (contact.submit_contact rt req) w).1 = 201
  /\ tables after !! "contact_data" = Some (rows ++ [new_row])%list
  /\ (forall key, ~ In key ["name"; "email"; "message"] -> new_row !! key = None)
  /\ run (contact.get_contacts rt) after
     = ((200, json_of_rows (rows ++ [new_row])%list), after).
Proof.
  intros Hb Hn He Hm Hup Hrows new_row after.
  assert (Hrun : run (contact.submit_contact rt req) w
                 = ((201, dict [("message",
                                 JStr "Contact message submitted successfully!");
                                ("data", json_of_rows [new_row])]),
                    set_tables w (<["contact_data" := (rows ++ [new_row])%list]>
                                    (tables w)))).
  { rewrite (submit_contact_valid rt req fields Hb Hn He Hm). fold new_row.
    cbn [run]. rewrite (next_outage_up w Hup). unfold do_insert.
    rewrite Hrows. reflexivity. }
  unfold after. rewrite Hrun. cbn [fst snd].
  split; [reflexivity |].
  assert (Ht : tables (set_tables w (<["contact_data" := (rows ++ [new_row])%list]>
                                       (tables w))) !! "contact_data"
               = Some (rows ++ [new_row])%list)
    by (cbn [set_tables tables]; apply lookup_insert_eq).
  split; [exact Ht |]. split.
  - intros key Hkey. unfold new_row, contact_row. cbn [list_to_map foldr uncurry].
    rewrite !lookup_insert_ne; [apply lookup_empty | ..];
      intros <-; apply Hkey; simpl; tauto.
  - unfold contact.get_contacts. rewrite run_select_up by exact Hup.
    fold contacts_query. rewrite (select_all_contacts _ _ Ht).
    destruct (rows ++ [new_row])%list eqn:E; [| reflexivity].
    now destruct rows.
Qed.

Lemma contact_submitted_is_listed_witness :
  status (run (contact.submit_contact Sample.rt
                 (Sample.post {[ "name" := SStr "Ann"; "email" := SStr "a@b.c";
                                 "message" := SStr "hello"; "spam" := SStr "x" ]}))
              Sample.db).1 = 201.
Proof.
  apply (contact_submitted_is_listed Sample.rt _
           {[ "name" := SStr "Ann"; "email" := SStr "a@b.c";
              "message" := SStr "hello"; "spam" := SStr "x" ]} Sample.db []);
    reflexivity.
Defined.

(** X12: /contact/submit changes the contact table exactly when it answers
    201, and then by appending one row; every other answer is 400 or 500
    and leaves the tables as they were. The buckets are never touched. *)
Theorem submit_contact_writes_iff_201 (rt : runtime) (req : request) (w : world) :
  let r := run (contact.submit_contact rt req) w in
  buckets r.2 = buckets w
  /\ ((status r.1 = 201
       /\ exists rows new_row,
            tables w !! "contact_data" = Some rows
            /\ tables r.2 = <["contact_data" := (rows ++ [new_row])%list]> (tables w))
      \/ ((status r.1 = 400 \/ status r.1 = 500) /\ tables r.2 = tables w)).
Proof.
  cbv zeta. unfold contact.submit_contact.
  destruct (body req) as [data |]; cbn [attempt];
    [| split; [reflexivity | right; split; [now right | reflexivity]]].
  destruct data as [fields |]; cbn [attempt contact.data_get];
    [| split; [reflexivity | right; split; [now right | reflexivity]]].
  destruct (negb _);
    [split; [reflexivity | right; split; [now left | reflexivity]] |].
  destruct (do name <- _; _) as [contact_data |]; cbn [attempt];
    [| split; [reflexivity | right; split; [now right | reflexivity]]].
  cbn [run]. pose proof (next_outage_keeps w) as (Ht & Hb & _).
  destruct (next_outage w) as [down w1]. cbn [snd] in Ht, Hb.
  destruct down; cbn [attempt run fst snd];
    [split; [exact Hb | right; split; [now right | exact Ht]] |].
  unfold do_insert.
  destruct (tables w1 !! "contact_data") as [rows |] eqn:Hrows;
    cbn [attempt run fst snd].
  - split; [exact Hb |]. left. split; [reflexivity |].
    exists rows, contact_data. split; [now rewrite <- Ht |].
    cbn [set_tables tables]. now rewrite Ht.
  - split; [exact Hb | right; split; [now right | exact Ht]].
Qed.

(** ** Announcements and their dates *)

Lemma format_all_fails rt (rows : list row) item e :
  In item rows ->
  unlicensedminer.format_announcement rt item = Raise e ->
  exists e', unlicensedminer.format_all rt rows = Raise e'.
Proof.
  induction rows as [| r rows IH]; intros Hin Hf; [contradiction |].
  cbn [unlicensedminer.format_all].
  destruct Hin as [-> | Hin].
  - rewrite Hf. now exists e.
  - destruct (unlicensedminer.format_announcement rt r); [| eauto].
    cbn [bind]. destruct (IH Hin Hf) as [e' ->]. now exists e'.
Qed.

(** X13: a date that cannot be read costs one announcement its date on
    /miner/announcements and costs the miner the whole list on
    /unlicensedminer/announcements. The first answers 200 with one entry per
    row of the reply, whatever the rows hold; the second answers 500 as soon
    as one row has a created_at text that fromisoformat rejects. *)
Theorem announcements_with_unreadable_date (rt : runtime) (req : request)
    (u : string) :
  minerpage.get_user_id req = Some u ->
  exists q1 k1 q2 k2,
    minerpage.get_announcements req = Select q1 k1
    /\ unlicensedminer.get_announcements rt req = Select q2 k2
    /\ (forall rows, exists resp items,
          k1 (Ok rows) = Done resp
          /\ status resp = 200
          /\ body_field resp "announcements" = Some (JList items)
          /\ length items = length rows)
    /\ (forall (rows : list row) item s e,
          In item rows ->
          item !! "created_at" = Some (SStr s) -> s <> "" ->
          fromisoformat rt s = Raise e ->
          k2 (Ok rows) = Done (500, error "Internal server error")).
Proof.
  intros Hid. destruct (identified req u Hid) as [Hor Hf].
  unfold minerpage.get_announcements, unlicensedminer.get_announcements,
    unlicensedminer.get_user_id.
  rewrite Hid, Hf. do 4 eexists.
  split; [reflexivity |]. split; [reflexivity |]. split.
  - intros rows. eexists. exists (minerpage.format_announcement <$> rows).
    cbn [attempt]. split; [reflexivity |]. split; [reflexivity |].
    split; [reflexivity | apply length_fmap].
  - intros rows item s e Hin Hdate Hs Hiso. cbn [attempt].
    assert (Hfail : unlicensedminer.format_announcement rt item = Raise e).
    { assert (Ht : truthy_scalar (SStr s) = true)
        by (cbn; apply String.eqb_neq in Hs; now rewrite Hs).
      unfold unlicensedminer.format_announcement. rewrite Hdate.
      change (default (SStr "") (Some (SStr s))) with (SStr s).
      rewrite Ht, Hiso. reflexivity. }
    destruct (format_all_fails rt rows item e Hin Hfail) as [e' ->].
    reflexivity.
Qed.

Lemma announcements_with_unreadable_date_witness :
  exists q1 k1 q2 k2,
    minerpage.get_announcements (Sample.miner ∅) = Select q1 k1
    /\ unlicensedminer.get_announcements Sample.rt (Sample.miner ∅) = Select q2 k2
    /\ (forall rows, exists resp items,
          k1 (Ok rows) = Done resp
          /\ status resp = 200
          /\ body_field resp "announcements" = Some (JList items)
          /\ length items = length rows)
    /\ (forall (rows : list row) item s e,
          In item rows ->
          item !! "created_at" = Some (SStr s) -> s <> "" ->
          fromisoformat Sample.rt s = Raise e ->
          k2 (Ok rows) = Done (500, error "Internal server error")).
Proof.
  apply (announcements_with_unreadable_date Sample.rt (Sample.miner ∅) "u1").
  reflexivity.
Defined.

(** ** The extension allowed_file looks at *)

Lemma split_without_sep s :
  Str.contains "." s = false -> Str.split "." s = [s].
Proof.
  induction s as [| c s IH]; [reflexivity |].
  cbn [Str.contains Str.split]. rewrite prefix_dot.
  intros H. apply orb_false_elim in H as [Hc Hs].
  rewrite Hc, (IH Hs). reflexivity.
Qed.

Lemma contains_dot_app a b : Str.contains "." (a +:+ String "." b) = true.
Proof.
  induction a as [| c a IH].
  - change ("" +:+ String "." b) with (String "." b).
    cbn [Str.contains]. rewrite prefix_dot. reflexivity.
  - change (String c a +:+ String "." b) with (String c (a +:+ String "." b)).
    cbn [Str.contains]. rewrite IH. apply orb_true_r.
Qed.

Lemma last_cons_cons {A} (x y : A) l d : List.last (x :: y :: l) d = List.last (y :: l) d.
Proof. reflexivity. Qed.

Lemma last_split_app a b :
  List.last (Str.split "." (a +:+ String "." b)) "" = List.last (Str.split "." b) "".
Proof.
  induction a as [| c a IH].
  - change ("" +:+ String "." b) with (String "." b).
    cbn [Str.split]. rewrite Ascii.eqb_refl.
    destruct (Str.split "." b) eqn:E; [now apply split_not_nil in E |].
    apply last_cons_cons.
  - change (String c a +:+ String "." b) with (String c (a +:+ String "." b)).
    cbn [Str.split].
    destruct (contains_dot_split _ (contains_dot_app a b)) as (x & y & rest & E).
    rewrite E in IH |- *.
    destruct (Ascii.eqb c "."); rewrite !last_cons_cons in *; exact IH.
Qed.

(** X14: allowed_file decides on the text after the last dot only, without
    regard to letter case: a name [stem.ext] whose [ext] has no dot is
    allowed exactly when the lower-cased [ext] is pdf, png, jpg or jpeg,
    whatever the stem holds (dots, other extensions, nothing); a name
    without a dot is never allowed. *)
Theorem allowed_file_last_extension :
  (forall stem ext,
     Str.contains "." ext = false ->
     license.allowed_file (stem +:+ "." +:+ ext)
     = bool_decide (Str.lower ext ∈ license.ALLOWED_EXTENSIONS))
  /\ (forall name,
        Str.contains "." name = false -> license.allowed_file name = false).
Proof.
  split.
  - intros stem ext Hext. unfold license.allowed_file.
    change (stem +:+ "." +:+ ext) with (stem +:+ String "." ext).
    rewrite contains_dot_app, (rsplit1_last _ (contains_dot_app stem ext)).
    rewrite last_split_app, (split_without_sep ext Hext). reflexivity.
  - intros name H. unfold license.allowed_file. now rewrite H.
Qed.

Lemma allowed_file_last_extension_witness :
  license.allowed_file "invoice.exe.PDF" = true
  /\ license.allowed_file "README" = false.
Proof.
  destruct allowed_file_last_extension as [Hext Hnone].
  split.
  - change "invoice.exe.PDF" with ("invoice.exe" +:+ "." +:+ "PDF").
    rewrite (Hext "invoice.exe" "PDF"); reflexivity.
  - apply Hnone. reflexivity.
Defined.

(** ** Dates written and read back *)

Lemma digit_char_code n : Str.code (Str.digit_char n) = Z.to_N (48 + n mod 10).
Proof.
  unfold Str.code, Str.digit_char. apply N_ascii_embedding.
  pose proof (Z.mod_pos_bound n 10 ltac:(lia)). lia.
Qed.

Lemma digit_char_is_digit n : Str.is_digit (Str.digit_char n) = true.
Proof.
  unfold Str.is_digit, Str.in_range. rewrite digit_char_code.
  pose proof (Z.mod_pos_bound n 10 ltac:(lia)).
  apply andb_true_iff. split; apply N.leb_le; lia.
Qed.

Lemma digit_char_value n : Str.digit_value (Str.digit_char n) = n mod 10.
Proof.
  unfold Str.digit_value. rewrite digit_char_code.
  pose proof (Z.mod_pos_bound n 10 ltac:(lia)). lia.
Qed.

Lemma match_digit a acc n s :
  Date.match_alt ((48, 57)%N :: a) acc (String (Str.digit_char n) s)
  = Date.match_alt a (10 * acc + n mod 10) s.
Proof.
  cbn [Date.match_alt].
  change (Str.in_range 48 57 (Str.digit_char n)) with (Str.is_digit (Str.digit_char n)).
  rewrite digit_char_is_digit. unfold Date.group_char.
  now rewrite digit_char_is_digit, digit_char_value.
Qed.

Lemma year_read y rest :
  0 <= y <= 9999 ->
  Date.match_alt Date.Y_directive 0 (Str.pad4 y +:+ rest) = Some (y, rest).
Proof.
  intros Hy. unfold Date.Y_directive, Str.pad4, Str.pad2.
  change (String ?a (String ?b (String ?c (String ?d ""))) +:+ rest)
    with (String a (String b (String c (String d rest)))).
  rewrite !match_digit. cbn [Date.match_alt]. do 2 f_equal.
  Z.div_mod_to_equations. lia.
Qed.

Lemma first_alt_ext {A} alts s (c1 c2 : Z -> string -> option A) :
  (forall v r, c1 v r = c2 v r) ->
  Date.first_alt alts s c1 = Date.first_alt alts s c2.
Proof.
  intros H. induction alts as [| a alts IH]; [reflexivity |].
  cbn [Date.first_alt]. destruct (Date.match_alt a 0 s) as [[v r] |]; [| exact IH].
  now rewrite H, IH.
Qed.

Lemma first_alt_map {A B} (f : A -> B) alts s (c : Z -> string -> option A) :
  Date.first_alt alts s (fun v r => option_map f (c v r))
  = option_map f (Date.first_alt alts s c).
Proof.
  induction alts as [| a alts IH]; [reflexivity |].
  cbn [Date.first_alt]. destruct (Date.match_alt a 0 s) as [[v r] |]; [| exact IH].
  destruct (c v r); [reflexivity | exact IH].
Qed.

Lemma months_days_checked :
  all_from (fun m => all_from (month_day_parsed m) 1 31) 1 12 = true.
Proof. vm_compute. reflexivity. Qed.

Lemma month_day_read m d :
  1 <= m <= 12 -> 1 <= d <= 31 -> month_day_parsed m d = true.
Proof.
  intros Hm Hd.
  apply (all_from_spec (month_day_parsed m) 31 1); [| simpl; lia].
  apply (all_from_spec (fun m => all_from (month_day_parsed m) 1 31) 12 1
           months_days_checked). simpl. lia.
Qed.

Lemma valid_bounds y m d :
  Date.valid y m d = true -> 0 <= y <= 9999 /\ 1 <= m <= 12 /\ 1 <= d <= 31.
Proof.
  unfold Date.valid, Date.days_in_month. intros H.
  repeat (apply andb_true_iff in H as [H ?]).
  repeat match goal with
  | H : (_ <=? _) = true |- _ => apply Z.leb_le in H
  end.
  repeat split; try lia.
  destruct (m =? 2); [destruct (Date.is_leap y); lia |].
  destruct (_ || _); lia.
Qed.

Lemma strptime_strftime d :
  Date.valid (Date.year d) (Date.month d) (Date.day d) = true ->
  Date.strptime_Y_m_d (Date.strftime_Y_m_d d) = Ok d.
Proof.
  destruct d as [y m dd]. cbn [Date.year Date.month Date.day]. intros Hv.
  destruct (valid_bounds y m dd Hv) as (Hy & Hm & Hd).
  unfold Date.strptime_Y_m_d, Date.match_Y_m_d, Date.strftime_Y_m_d.
  cbn [Date.year Date.month Date.day].
  rewrite (year_read y _ Hy).
  change (Date.expect_dash ("-" +:+ ?s)) with (Some s).
  cbv iota.
  rewrite (first_alt_ext _ _ _
             (fun v r =>
                option_map (fun t : Z * Z * string => (y, t.1.1, t.1.2, t.2))
                  (match Date.expect_dash r with
                   | None => None
                   | Some s4 =>
                       Date.first_alt Date.d_directive s4
                         (fun d s5 => Some (v, d, s5))
                   end))).
  2: { intros v r. destruct (Date.expect_dash r) as [s4 |]; [| reflexivity].
       cbn [option_map].
       rewrite <- (first_alt_map (fun t : Z * Z * string => (y, t.1.1, t.1.2, t.2))).
       reflexivity. }
  rewrite first_alt_map.
  pose proof (month_day_read m dd Hm Hd) as Hp. unfold month_day_parsed in Hp.
  destruct (Date.first_alt Date.m_directive _ _) as [[[m' d'] [| c s]] |];
    try discriminate Hp.
  apply andb_true_iff in Hp as [H1 H2]. apply Z.eqb_eq in H1, H2. subst.
  cbn [option_map fst snd]. unfold Date.make. now rewrite Hv.
Qed.

Lemma all_chars_app p a b :
  Str.all_chars p (a +:+ b) = Str.all_chars p a && Str.all_chars p b.
Proof.
  induction a as [| c a IH]; [reflexivity |].
  change (String c a +:+ b) with (String c (a +:+ b)).
  cbn [Str.all_chars]. now rewrite IH, andb_assoc.
Qed.

Lemma strftime_chars d : Str.all_chars date_char (Date.strftime_Y_m_d d) = true.
Proof.
  unfold Date.strftime_Y_m_d, Str.pad4, Str.pad2.
  rewrite !all_chars_app. cbn [Str.all_chars]. unfold date_char.
  rewrite !digit_char_is_digit. reflexivity.
Qed.

Lemma prefix_T c s : String.prefix "T" (String c s) = Ascii.eqb c "T".
Proof.
  change (String.prefix "T" (String c s))
    with (if ascii_dec "T" c then String.prefix "" s else false).
  destruct (ascii_dec "T" c) as [<- | Hne].
  - rewrite Ascii.eqb_refl. now destruct s.
  - symmetry. apply Ascii.eqb_neq. congruence.
Qed.

Lemma date_char_not_T c : date_char c = true -> Ascii.eqb c "T" = false.
Proof. each_char c; (reflexivity || discriminate). Qed.

Lemma date_text_without_T s :
  Str.all_chars date_char s = true -> Str.contains "T" s = false.
Proof.
  induction s as [| c s IH]; [reflexivity |].
  cbn [Str.all_chars Str.contains]. intros H.
  apply andb_true_iff in H as [Hc Hs].
  now rewrite prefix_T, (date_char_not_T c Hc), (IH Hs).
Qed.

Lemma date_text_before_T s t :
  Str.all_chars date_char s = true ->
  Str.contains "T" (s +:+ String "T" t) = true
  /\ hd "" (Str.split "T" (s +:+ String "T" t)) = s.
Proof.
  induction s as [| c s IH]; intros H.
  - change ("" +:+ String "T" t) with (String "T" t). split; [| reflexivity].
    cbn [Str.contains]. now rewrite prefix_T.
  - cbn [Str.all_chars] in H. apply andb_true_iff in H as [Hc Hs].
    destruct (IH Hs) as [H1 H2].
    change (String c s +:+ String "T" t) with (String c (s +:+ String "T" t)).
    split.
    + cbn [Str.contains]. rewrite H1. apply orb_true_r.
    + cbn [Str.split]. rewrite (date_char_not_T c Hc).
      destruct (Str.split "T" (s +:+ String "T" t)) as [| x xs];
        cbn [hd] in *; now subst.
Qed.



(** ** The expiry date against the active date *)

Lemma py_int_nonneg g n : Str.py_int g = Ok n -> 0 <= n.
Proof.
  unfold Str.py_int. destruct g as [| c g]; [discriminate |].
  destruct (Str.all_chars Str.is_digit (String c g)) eqn:H; [| discriminate].
  intros E. injection E as <-.
  exact (int_of_digits_nonneg (String c g) 0 ltac:(lia) H).
Qed.

Lemma truediv_not_negative n q :
  0 <= n -> Float.truediv n 12 = Ok q -> not_negative (PFloat q).
Proof.
  unfold Float.truediv. intros Hn H.
  destruct (of_ratio_sign (xorb (n <? 0) (12 <? 0)) (Z.abs n) (Z.abs 12)
              ltac:(lia) ltac:(lia)) as [Hnan Hsign].
  destruct (Float.is_infinite _); [discriminate |]. injection H as <-.
  split; [exact Hnan |]. rewrite Hsign.
  replace (n <? 0) with false by (symmetry; apply Z.ltb_ge; lia). reflexivity.
Qed.

Lemma parse_period_not_negative period :
  not_negative (minerpage.parse_period period).
Proof.
  unfold minerpage.parse_period, minerpage.parse_period_try.
  destruct (Str.re_search_run _ _) as [group |]; [| simpl; lia].
  destruct (Str.py_int group) as [num |] eqn:Hnum; [| simpl; lia].
  apply py_int_nonneg in Hnum. cbn [bind].
  destruct (Str.contains "month" _).
  - destruct (Float.truediv num 12) as [q |] eqn:Hq; [| simpl; lia].
    cbn [bind try_except]. now apply (truediv_not_negative num).
  - destruct (existsb _ _); exact Hnum.
Qed.

Lemma mul_365_not_negative x product :
  not_negative x -> mul_int 365 x = Ok product -> not_negative product.
Proof.
  destruct x as [n | f]; cbn [mul_int not_negative].
  - intros Hn H. injection H as <-. cbn. lia.
  - intros [Hnan Hsign] H.
    destruct (Float.of_int 365) as [fk |] eqn:Hk; [| discriminate].
    vm_compute in Hk. injection Hk as <-.
    cbn [bind] in H. injection H as <-. cbn [not_negative].
    destruct f as [s | s | | s m e]; cbn in Hnan, Hsign; subst;
      try discriminate; try (now split).
    unfold Float.mul, SFmul. apply binary_round_aux_sign. lia.
Qed.

Lemma round_not_negative x days :
  not_negative x -> py_round x = Ok days -> 0 <= days.
Proof.
  destruct x as [n | f]; cbn [py_round not_negative].
  - intros Hn H. now injection H as <-.
  - intros [_ Hsign]. unfold Float.round.
    destruct f as [s | s | | s m e]; cbn in Hsign; subst; try discriminate.
    + intros H. injection H as <-. lia.
    + intros H. injection H as <-.
      destruct (0 <=? e) eqn:He;
        [apply Z.mul_nonneg_nonneg; [lia | apply Z.pow_nonneg; lia] |].
      apply Z.leb_gt in He. unfold Float.round_half_even_shift.
      assert (0 <= Z.pos m / 2 ^ (- e))
        by (apply Z.div_pos; [lia | apply Z.pow_pos_nonneg; lia]).
      destruct (_ ?= _); [destruct (Z.even _) | |]; lia.
Qed.

(** X16: a license never expires before it becomes active: whatever the
    period of validity holds (a minus sign is not read, a text without a
    number counts as one year), when get_license computes an expiry date it
    is the active date or a later day. *)
Theorem expiry_not_before_active_date (active_date expiry_date : Date.date)
    (period : scalar) :
  minerpage.calculate_expiry active_date (minerpage.parse_period period)
    = Ok expiry_date ->
  Date.toordinal active_date <= Date.toordinal expiry_date.
Proof.
  unfold minerpage.calculate_expiry. intros H.
  destruct (mul_int 365 _) as [product |] eqn:Hmul; [| discriminate].
  cbn [bind] in H.
  destruct (py_round product) as [days |] eqn:Hround; [| discriminate].
  cbn [bind] in H.
  pose proof (parse_period_not_negative period) as Hp.
  pose proof (mul_365_not_negative _ _ Hp Hmul) as Hprod.
  pose proof (round_not_negative _ _ Hprod Hround) as Hdays.
  apply add_days_ordinal in H. lia.
Qed.

Lemma expiry_not_before_active_date_witness :
  Date.toordinal (Date.mk 2024 1 1) <= Date.toordinal (Date.mk 2025 7 2).
Proof.
  apply (expiry_not_before_active_date _ _ (SStr "-18 months")).
  vm_compute. reflexivity.
Defined.

(** ** The number parse_period reads *)

Lemma search_first_digits before num after :
  free Str.is_digit before ->
  Str.all_chars Str.is_digit num = true -> num <> "" ->
  Str.take_while Str.is_digit after = "" ->
  Str.re_search_run Str.is_digit (before +:+ num +:+ after) = Some num.
Proof.
  intros Hb Hn Hne Ha. unfold Str.re_search_run.
  assert (Hdrop : Str.drop_while (fun c => negb (Str.is_digit c))
                    (before +:+ num +:+ after) = num +:+ after).
  { induction before as [| c s IH].
    - destruct num as [| d rest]; [contradiction |].
      cbn [Str.all_chars] in Hn. apply andb_true_iff in Hn as [Hd _].
      change ("" +:+ String d rest +:+ after) with (String d (rest +:+ after)).
      cbn [Str.drop_while]. now rewrite Hd.
    - apply free_cons in Hb as [Hc Hs].
      change (String c s +:+ num +:+ after) with (String c (s +:+ num +:+ after)).
      cbn [Str.drop_while]. rewrite Hc. cbn [negb]. now apply IH. }
  rewrite Hdrop.
  assert (Htake : forall s, Str.all_chars Str.is_digit s = true ->
                            Str.take_while Str.is_digit (s +:+ after) = s).
  { induction s as [| c s IH]; [intros _; exact Ha |].
    cbn [Str.all_chars]. intros H. apply andb_true_iff in H as [Hc Hs].
    change (String c s +:+ after) with (String c (s +:+ after)).
    cbn [Str.take_while]. now rewrite Hc, (IH Hs). }
  pose proof (Htake num Hn) as Ht.
  destruct num as [| d rest]; [contradiction |].
  change (String d rest +:+ after) with (String d (rest +:+ after)) in Ht |- *.
  cbv iota. now rewrite Ht.
Qed.

Lemma take_while_digit_lower s :
  Str.take_while Str.is_digit (Str.lower s)
  = Str.lower (Str.take_while Str.is_digit s).
Proof.
  induction s as [| c s IH]; [reflexivity |].
  cbn [Str.lower Str.take_while]. rewrite lower_char_digit.
  destruct (Str.is_digit c); [| reflexivity].
  cbn [Str.lower]. now rewrite IH.
Qed.

Lemma py_int_digits num :
  Str.all_chars Str.is_digit num = true -> num <> "" ->
  Str.py_int num = Ok (Str.int_of_digits 0 num).
Proof.
  intros H Hne. unfold Str.py_int. destruct num; [contradiction |]. now rewrite H.
Qed.



(** ** What an answer tells the client *)

Lemma run_ends_in {A} (P : A -> Prop) (p : remote A) :
  ends_in P p -> forall w, P (run p w).1.
Proof.
  induction 1 as [a Ha | q k _ IH | table r k _ IH | k _ IH
                 | bucket path data options k _ IH | bucket path k _ IH];
    intros w; cbn [run]; [exact Ha | | | | |].
  - destruct (next_outage w) as [[] w']; apply IH.
  - destruct (next_outage w) as [[] w']; [apply IH |].
    destruct (do_insert table r w') as [reply w'']. apply IH.
  - destruct (next_outage w) as [[] w']; apply IH.
  - destruct (next_outage w) as [[] w']; [apply IH |].
    destruct (do_upload bucket path data w') as [reply w'']. apply IH.
  - apply IH.
Qed.

Lemma error_entry_first c v l : is_error_body (c, dict (("error", v) :: l)) = true.
Proof.
  unfold is_error_body, dict. cbn [snd list_to_map foldr uncurry].
  apply bool_decide_eq_true. rewrite lookup_insert_eq. now eexists.
Qed.

Ltac failure_leaf :=
  split;
  [ cbn; tauto
  | split; [intros _; cbn; lia | intros _; apply error_entry_first] ].

Ltac success_leaf :=
  split;
  [ cbn; tauto
  | split; [ intros H; exfalso; revert H; (discriminate || (vm_compute; discriminate))
           | cbn; lia ] ].

Ltac leaf :=
  apply ends_in_done;
  unfold error, minerpage.internal_error, unlicensedminer.internal_error,
    unlicensedminer.upload_error, unlicensedminer.uploaded, contact.failure;
  first [failure_leaf | success_leaf].

Ltac leaves :=
  cbv zeta;
  repeat match goal with
  | |- ends_in _ (Done _) => leaf
  | |- ends_in _ (Select _ _) => apply ends_in_select; intros ?
  | |- ends_in _ (Insert _ _ _) => apply ends_in_insert; intros ?
  | |- ends_in _ (Upload _ _ _ _ _) => apply ends_in_upload; intros ?
  | |- ends_in _ (GetPublicUrl _ _ _) => apply ends_in_get_public_url; intros ?
  | |- ends_in _ (attempt ?m _ _) => destruct m; cbn [attempt]
  | |- ends_in _ (if ?x then _ else _) => destruct x eqn:?
  | |- ends_in _ (match ?x with _ => _ end) => destruct x eqn:?
  end.

(** X18: what a client can rely on in an answer. Whatever the request, the
    stored data and the failures of the service, each route answers with one
    of the status codes listed for it (so /unlicensedminer/upload-document
    reports a stored document with 200 and /contact/submit with 201, and
    /contact/get never answers 404), and the body is an object with an
    [error] entry exactly when the status is 400 or more. *)
Theorem routes_answer_contract (rt : runtime) (path : string) (h : handler)
    (req : request) (w : world) :
  In (path, h) (remote_routes rt) ->
  exists codes,
    In (path, codes) route_statuses
    /\ answer_contract codes (run (h req) w).1.
Proof.
  unfold remote_routes, get_routes, miner_get_routes. simpl. intros Hin.
  repeat (destruct Hin as [Heq | Hin]; [injection Heq as <- <- |]);
    try contradiction.
  all: eexists; split;
    [ unfold route_statuses; repeat (first [left; reflexivity | right]) |].
  all: apply run_ends_in.
  all: unfold minerpage.get_license, minerpage.get_royalty,
         minerpage.get_announcements, unlicensedminer.get_user_status,
         unlicensedminer.get_application_details, unlicensedminer.get_documents,
         unlicensedminer.get_announcements, unlicensedminer.upload_document,
         license_routes.get_licenses, contact.get_contacts, contact.submit_contact.
  all: leaves.
Qed.

Lemma routes_answer_contract_witness :
  exists codes,
    In ("/contact/submit", codes) route_statuses
    /\ answer_contract codes
         (run (contact.submit_contact Sample.rt Sample.anonymous) Sample.db).1.
Proof.
  apply (routes_answer_contract Sample.rt "/contact/submit"
           (contact.submit_contact Sample.rt)).
  unfold remote_routes, get_routes, miner_get_routes. simpl. tauto.
Defined.
